(** * go-license: the binary license codec and the license verifier

    A shallow embedding of the Go packages [licformat] (binary.go,
    adapter.go), [licverify] (license.go) and [licgen] (crypto.go,
    license.go), with the properties of the wire format, of the verification
    order and of the hardware matching policy.

    Conventions.
    - A Go [string] is a sequence of bytes; it is modelled by [string], whose
      characters are 8-bit.  [[]byte(s)] is [list_byte_of_string s] and
      [string(data)] is [string_of_list_byte data].
    - A fixed-width integer is a [Z] with its wrap-around written out
      ([uint16], [uint32], [uint64], [int64]).
    - A slice is a list; [nil] and the empty slice are both [[]].
    - A Go function returning [(T, error)] returns [result T]; one returning
      only [error] returns [option error], [None] standing for [nil].
    - What the code reads from its environment (the clock, the detected
      hardware, the file system) and the library routines it calls
      (crypto/sha256, crypto/rsa, encoding/json) are inputs of the model. *)

From Stdlib Require Import ZArith List Lia Bool String Ascii.
From Stdlib Require Import Strings.Byte.
Import ListNotations.

Local Open Scope string_scope.
Local Open Scope list_scope.
Local Open Scope Z_scope.

Set Implicit Arguments.

(** * Time *)

(** [time.Time], reduced to what the code observes: the count of seconds
    since the Unix epoch and the nanosecond within that second (0 to
    999_999_999).  A time read from a license carries no monotonic clock
    reading, so comparisons with it use the wall clock only. *)
Record Time : Type := mkTime { seconds : Z; nanosecond : Z }.

Definition int64 (z : Z) : Z := (z + 2 ^ 63) mod 2 ^ 64 - 2 ^ 63.
Definition uint64 (z : Z) : Z := z mod 2 ^ 64.
Definition uint32 (z : Z) : Z := z mod 2 ^ 32.
Definition uint16 (z : Z) : Z := z mod 2 ^ 16.

(** [t.Unix()]: an [int64]. *)
Definition Unix (t : Time) : Z := int64 (seconds t).

(** The seconds from January 1 of year 1, where [time.Time] starts to
    count, to the Unix epoch. *)
Definition unixToInternal : Z := 62135596800.

(** [time.Unix(sec, 0)].  The time is kept as the [int64]
    [sec + unixToInternal], which wraps around: a count of seconds above
    [2^63 - 1 - unixToInternal] gives a time [2^64] seconds earlier. *)
Definition time_Unix (sec : Z) : Time :=
  mkTime (int64 (sec + unixToInternal) - unixToInternal) 0.

(** [t.After(u)]. *)
Definition After (t u : Time) : bool :=
  (seconds u <? seconds t)
  || ((seconds t =? seconds u) && (nanosecond u <? nanosecond t)).

(** A [time.Duration] counts nanoseconds. *)
Definition Second : Z := 1000000000.

(** [t.Add(d)]: the whole seconds of [d] and its remainder (both truncated
    towards zero) are added, and the nanosecond is brought back into range. *)
Definition Add (t : Time) (d : Z) : Time :=
  let dsec := Z.quot d Second in
  let nsec := nanosecond t + Z.rem d Second in
  if Second <=? nsec then mkTime (seconds t + (dsec + 1)) (nsec - Second)
  else if nsec <? 0 then mkTime (seconds t + (dsec - 1)) (nsec + Second)
  else mkTime (seconds t + dsec) nsec.

(** * Errors and results *)

Inductive error : Type :=
| EOF                                   (* io.EOF *)
| ErrUnexpectedEOF                      (* io.ErrUnexpectedEOF *)
| ErrVerification                       (* rsa.ErrVerification *)
| New (msg : string)                    (* errors.New(msg) *)
| Errorf (format : string) (err : error)
                                        (* fmt.Errorf(format, err) *)
| Errorf2 (format : string) (err1 err2 : error)
                                        (* fmt.Errorf(format, err1, err2) *)
| ErrorfTime (format : string) (t : Time).
                                        (* fmt.Errorf(format, t.Format(..)) *)

Inductive result (A : Type) : Type :=
| Ok (a : A)
| Err (e : error).

Arguments Ok {A} a.
Arguments Err {A} e.

Definition is_ok {A} (r : result A) : bool :=
  match r with Ok _ => true | Err _ => false end.

(** * Bytes and little-endian integers (encoding/binary) *)

Definition Z_of_byte (b : byte) : Z := Z.of_N (Byte.to_N b).

(** [byte(v)]: the low eight bits. *)
Definition byte_of_Z (v : Z) : byte :=
  match Byte.of_N (Z.to_N (v mod 256)) with
  | Some b => b
  | None => x00
  end.

(** [binary.LittleEndian.PutUintN]: [b[0] = byte(v)], [b[1] = byte(v >> 8)],
    and so on, for a field of [n] bytes. *)
Fixpoint PutUintLE (n : nat) (v : Z) : list byte :=
  match n with
  | O => []
  | S n' => byte_of_Z v :: PutUintLE n' (Z.shiftr v 8)
  end.

(** [binary.LittleEndian.UintN]: [b[0] | b[1]<<8 | ...]. *)
Fixpoint UintLE (bs : list byte) : Z :=
  match bs with
  | [] => 0
  | b :: bs' => Z.lor (Z_of_byte b) (Z.shiftl (UintLE bs') 8)
  end.

Definition len {A} (l : list A) : Z := Z.of_nat (List.length l).

Module licformat.

(** ** binary.go: the data model *)

Definition currentVersion : byte := x01.

Record header : Type := mkHeader { Version : byte; Length : Z }.

Record HardwareBindingData : Type := mkHardwareBindingData {
  MACAddresses : list string;
  DiskIDs : list string;
  HostNames : list string;
  CustomIDs : list string
}.

Record LicenseData : Type := mkLicenseData {
  ID : string;
  CustomerID : string;
  ProductID : string;
  SerialNumber : string;
  IssueDate : Time;
  ExpiryDate : Time;
  Features : list string;
  HardwareIDs : HardwareBindingData
}.

(** ** Writing: [bytes.Buffer] *)

(** The buffer is the sequence of bytes written so far; a write appends
    and never fails. *)
Definition Buffer : Type := list byte.

Definition Buffer_Write (buf : Buffer) (p : list byte) : Buffer := buf ++ p.

(** [binary.Write(buf, binary.LittleEndian, h)] for a [header]: the version
    byte, then the length as a [uint32]. *)
Definition binary_Write_header (buf : Buffer) (h : header) : Buffer :=
  Buffer_Write buf (Version h :: PutUintLE 4 (Length h)).

Definition binary_Write_uint16 (buf : Buffer) (v : Z) : Buffer :=
  Buffer_Write buf (PutUintLE 2 v).

(** [binary.Write] of an [int64] writes its two's complement. *)
Definition binary_Write_int64 (buf : Buffer) (v : Z) : Buffer :=
  Buffer_Write buf (PutUintLE 8 (uint64 v)).

Definition writeString (buf : Buffer) (s : string) : Buffer :=
  let data := list_byte_of_string s in
  let buf := binary_Write_uint16 buf (uint16 (len data)) in
  Buffer_Write buf data.

Definition writeStringSlice (buf : Buffer) (slice : list string) : Buffer :=
  let buf := binary_Write_uint16 buf (uint16 (len slice)) in
  fold_left writeString slice buf.

(** [binary.LittleEndian.PutUint32(bytes[1:5], v)]. *)
Definition PutUint32_at_1 (bytes : list byte) (v : Z) : list byte :=
  firstn 1 bytes ++ PutUintLE 4 v ++ skipn 5 bytes.

Definition EncodeLicenseData (data : LicenseData) : result (list byte) :=
  let buf : Buffer := [] in
  (* Write header placeholder (will update length later) *)
  let h := mkHeader currentVersion 0 in
  let buf := binary_Write_header buf h in
  let headerSize := len buf in
  (* Write license fields *)
  let buf := writeString buf (ID data) in
  let buf := writeString buf (CustomerID data) in
  let buf := writeString buf (ProductID data) in
  let buf := writeString buf (SerialNumber data) in
  (* Write timestamps *)
  let buf := binary_Write_int64 buf (Unix (IssueDate data)) in
  let buf := binary_Write_int64 buf (Unix (ExpiryDate data)) in
  (* Write features *)
  let buf := writeStringSlice buf (Features data) in
  (* Write hardware binding *)
  let buf := writeStringSlice buf (MACAddresses (HardwareIDs data)) in
  let buf := writeStringSlice buf (DiskIDs (HardwareIDs data)) in
  let buf := writeStringSlice buf (HostNames (HardwareIDs data)) in
  let buf := writeStringSlice buf (CustomIDs (HardwareIDs data)) in
  (* Update header with correct length *)
  let bytes := buf in
  let bytes := PutUint32_at_1 bytes (uint32 (len bytes - headerSize)) in
  Ok bytes.

(** ** Reading: [bytes.Reader] *)

(** The reader never changes its slice and only moves forward, so its state
    is the unread part [r.s[r.i:]]. *)
Definition Reader : Type := list byte.

(** A read either fails, and the decoder returns at once, or yields a value
    and the reader after it. *)
Definition Dec (A : Type) : Type := Reader -> result (A * Reader).

Definition ret {A} (a : A) : Dec A := fun r => Ok (a, r).

Definition fail {A} (e : error) : Dec A := fun _ => Err e.

Definition bind {A B} (m : Dec A) (k : A -> Dec B) : Dec B :=
  fun r =>
    match m r with
    | Ok (a, r') => k a r'
    | Err e => Err e
    end.

Notation "x <- m ;; k" := (bind m (fun x => k))
  (at level 61, m at next level, right associativity).

(** [io.ReadFull(r, buf)] with [len(buf) = n], as [binary.Read] calls it:
    fewer than [n] unread bytes is an error ([io.EOF] when there are none,
    [io.ErrUnexpectedEOF] otherwise). *)
Definition io_ReadFull (n : nat) : Dec (list byte) :=
  fun r =>
    if (n <=? List.length r)%nat then Ok (firstn n r, skipn n r)
    else match r with
         | [] => Err EOF
         | _ :: _ => Err ErrUnexpectedEOF
         end.

(** [Read(b)] of a [bytes.Reader], with [b = make([]byte, n)]: at the end of the
    input it returns [io.EOF], whatever [n] is; otherwise it copies what
    there is, at most [n] bytes, and returns no error.  The rest of [b] keeps
    the zero bytes [make] gave it. *)
Definition Reader_Read (n : nat) : Dec (list byte) :=
  fun r =>
    match r with
    | [] => Err EOF
    | _ :: _ =>
        Ok (firstn n r ++ repeat x00 (n - List.length r), skipn n r)
    end.

Definition binary_Read_header : Dec header :=
  bs <- io_ReadFull 5 ;;
  ret (mkHeader (hd x00 bs) (UintLE (tl bs))).

Definition binary_Read_uint16 : Dec Z :=
  bs <- io_ReadFull 2 ;; ret (UintLE bs).

Definition binary_Read_int64 : Dec Z :=
  bs <- io_ReadFull 8 ;; ret (int64 (UintLE bs)).

Definition readString : Dec string :=
  length <- binary_Read_uint16 ;;
  data <- Reader_Read (Z.to_nat length) ;;
  ret (string_of_list_byte data).

(** The loop of [readStringSlice]: [n] strings, in order. *)
Fixpoint readStrings (n : nat) : Dec (list string) :=
  match n with
  | O => ret []
  | S n' =>
      s <- readString ;;
      rest <- readStrings n' ;;
      ret (s :: rest)
  end.

Definition readStringSlice : Dec (list string) :=
  length <- binary_Read_uint16 ;;
  readStrings (Z.to_nat length).

Definition decodeBody : Dec LicenseData :=
  (* Read header *)
  h <- binary_Read_header ;;
  (* Check version *)
  if negb (Byte.eqb (Version h) currentVersion)
  then fail (New "unsupported license format version")
  else
    (* Read license fields *)
    id <- readString ;;
    customerID <- readString ;;
    productID <- readString ;;
    serialNumber <- readString ;;
    (* Read timestamps *)
    issueUnix <- binary_Read_int64 ;;
    expiryUnix <- binary_Read_int64 ;;
    (* Read features *)
    features <- readStringSlice ;;
    (* Read hardware binding *)
    macAddresses <- readStringSlice ;;
    diskIDs <- readStringSlice ;;
    hostNames <- readStringSlice ;;
    customIDs <- readStringSlice ;;
    ret (mkLicenseData id customerID productID serialNumber
           (time_Unix issueUnix) (time_Unix expiryUnix) features
           (mkHardwareBindingData macAddresses diskIDs hostNames customIDs)).

Definition DecodeLicenseData (data : list byte) : result LicenseData :=
  if len data <? 5 (* Minimum size for header *)
  then Err (New "data too small to be a valid license")
  else
    match decodeBody data with
    | Ok (licenseData, _) => Ok licenseData
    | Err e => Err e
    end.

(** ** adapter.go *)

Module adapter.

(** Copies of the structs of [licverify], kept here to avoid an import
    cycle. *)
Record HardwareBinding : Type := mkHardwareBinding {
  MACAddresses : list string;
  DiskIDs : list string;
  HostNames : list string;
  CustomIDs : list string
}.

Record License : Type := mkLicense {
  ID : string;
  CustomerID : string;
  ProductID : string;
  SerialNumber : string;
  IssueDate : Time;
  ExpiryDate : Time;
  Features : list string;
  HardwareIDs : HardwareBinding;
  Signature : list byte
}.

Definition ToLicenseData (license : License) : LicenseData :=
  mkLicenseData (ID license) (CustomerID license) (ProductID license)
    (SerialNumber license) (IssueDate license) (ExpiryDate license)
    (Features license)
    (mkHardwareBindingData
       (MACAddresses (HardwareIDs license))
       (DiskIDs (HardwareIDs license))
       (HostNames (HardwareIDs license))
       (CustomIDs (HardwareIDs license))).

Definition FromLicenseData (data : LicenseData) : License :=
  mkLicense (licformat.ID data) (licformat.CustomerID data)
    (licformat.ProductID data) (licformat.SerialNumber data)
    (licformat.IssueDate data) (licformat.ExpiryDate data)
    (licformat.Features data)
    (mkHardwareBinding
       (licformat.MACAddresses (licformat.HardwareIDs data))
       (licformat.DiskIDs (licformat.HardwareIDs data))
       (licformat.HostNames (licformat.HardwareIDs data))
       (licformat.CustomIDs (licformat.HardwareIDs data)))
    [].

Definition EncodeLicense (license : License) : result (list byte) :=
  let data := ToLicenseData license in
  EncodeLicenseData data.

Definition DecodeLicense (data : list byte) : result License :=
  match DecodeLicenseData data with
  | Err err => Err err
  | Ok licenseData => Ok (FromLicenseData licenseData)
  end.

End adapter.

End licformat.

(** * crypto/rsa keys *)

Record PublicKey : Type := mkPublicKey { N : Z; E : Z }.

Record PrivateKey : Type := mkPrivateKey { Public : PublicKey; D : Z }.

(** [N.BitLen()]. *)
Definition BitLen (n : Z) : Z := if n <=? 0 then 0 else Z.log2 n + 1.

(** [pub.Size()]: the modulus size in bytes. *)
Definition Size (pub : PublicKey) : Z := (BitLen (N pub) + 7) / 8.

Module licverify.

(** ** hardware.go *)

Module hardware.

Record HardwareInfo : Type := mkHardwareInfo {
  MACAddresses : list string;
  DiskIDs : list string;
  Hostname : string;
  CPUInfo : string
}.

End hardware.

(** ** license.go *)

Record HardwareBinding : Type := mkHardwareBinding {
  MACAddresses : list string;
  DiskIDs : list string;
  HostNames : list string;
  CustomIDs : list string
}.

Record License : Type := mkLicense {
  ID : string;
  CustomerID : string;
  ProductID : string;
  SerialNumber : string;
  IssueDate : Time;
  ExpiryDate : Time;
  Features : list string;
  HardwareIDs : HardwareBinding;
  Signature : list byte
}.

Record Verifier : Type := mkVerifier { publicKey : PublicKey }.

(** [contains] checks if a string is in a slice. *)
Fixpoint contains (slice : list string) (item : string) : bool :=
  match slice with
  | [] => false
  | s :: slice' => if String.eqb s item then true else contains slice' item
  end.

(** [containsAny] checks if any string from the first slice is in the
    second slice. *)
Fixpoint containsAny (slice1 slice2 : list string) : bool :=
  match slice1 with
  | [] => false
  | s1 :: slice1' =>
      if existsb (fun s2 => String.eqb s1 s2) slice2 then true
      else containsAny slice1' slice2
  end.

(** [licenseCopy := *license; licenseCopy.Signature = nil]. *)
Definition withoutSignature (license : License) : License :=
  mkLicense (ID license) (CustomerID license) (ProductID license)
    (SerialNumber license) (IssueDate license) (ExpiryDate license)
    (Features license) (HardwareIDs license) [].

(** The [licformat.License] built field by field from a [License]; its
    [Signature] is left at its zero value. *)
Definition toFormat (license : License) : licformat.adapter.License :=
  licformat.adapter.mkLicense (ID license) (CustomerID license)
    (ProductID license) (SerialNumber license) (IssueDate license)
    (ExpiryDate license) (Features license)
    (licformat.adapter.mkHardwareBinding
       (MACAddresses (HardwareIDs license))
       (DiskIDs (HardwareIDs license))
       (HostNames (HardwareIDs license))
       (CustomIDs (HardwareIDs license)))
    [].

(** The [License] built field by field from the imported license, then
    given the signature split off the file. *)
Definition ofFormat (importedLicense : licformat.adapter.License)
    (signature : list byte) : License :=
  mkLicense
    (licformat.adapter.ID importedLicense)
    (licformat.adapter.CustomerID importedLicense)
    (licformat.adapter.ProductID importedLicense)
    (licformat.adapter.SerialNumber importedLicense)
    (licformat.adapter.IssueDate importedLicense)
    (licformat.adapter.ExpiryDate importedLicense)
    (licformat.adapter.Features importedLicense)
    (mkHardwareBinding
       (licformat.adapter.MACAddresses
          (licformat.adapter.HardwareIDs importedLicense))
       (licformat.adapter.DiskIDs
          (licformat.adapter.HardwareIDs importedLicense))
       (licformat.adapter.HostNames
          (licformat.adapter.HardwareIDs importedLicense))
       (licformat.adapter.CustomIDs
          (licformat.adapter.HardwareIDs importedLicense)))
    signature.

Definition setSignature (license : License) (signature : list byte)
    : License :=
  mkLicense (ID license) (CustomerID license) (ProductID license)
    (SerialNumber license) (IssueDate license) (ExpiryDate license)
    (Features license) (HardwareIDs license) signature.

(** [VerifyHardwareBinding], given what [GetHardwareInfo()] returned. *)
Definition VerifyHardwareBinding
    (GetHardwareInfo : result hardware.HardwareInfo) (license : License)
    : option error :=
  match GetHardwareInfo with
  | Err err => Some (Errorf "failed to get hardware info: %v" err)
  | Ok hwInfo =>
      (* Verify MAC addresses *)
      if (0 <? len (MACAddresses (HardwareIDs license)))
         && negb (containsAny (hardware.MACAddresses hwInfo)
                    (MACAddresses (HardwareIDs license)))
      then Some (New
        "license is not valid for this hardware (MAC address mismatch)")
      (* Verify disk IDs if present *)
      else if (0 <? len (DiskIDs (HardwareIDs license)))
         && negb (containsAny (hardware.DiskIDs hwInfo)
                    (DiskIDs (HardwareIDs license)))
      then Some (New
        "license is not valid for this hardware (disk ID mismatch)")
      (* Verify hostname if present *)
      else if (0 <? len (HostNames (HardwareIDs license)))
         && negb (contains (HostNames (HardwareIDs license))
                    (hardware.Hostname hwInfo))
      then Some (New
        "license is not valid for this hardware (hostname mismatch)")
      else None
  end.

(** [VerifyExpiry], given what [time.Now()] returned. *)
Definition VerifyExpiry (now : Time) (license : License) : option error :=
  if After now (ExpiryDate license)
  then Some (ErrorfTime "license expired on %s" (ExpiryDate license))
  else None.

Section Verifier.

(** The library routines and the file system. *)
Variable sha256_Sum256 : list byte -> list byte.
Variable rsa_VerifyPKCS1v15 :
  PublicKey -> list byte -> list byte -> option error.
Variable json_Marshal : License -> result (list byte).
Variable json_Unmarshal : list byte -> result License.
Variable os_ReadFile : string -> result (list byte).

Definition LoadLicense (v : Verifier) (filePath : string) : result License :=
  match os_ReadFile filePath with
  | Err err => Err (Errorf "failed to read license file: %v" err)
  | Ok data =>
      (* The last 256 bytes (for RSA-2048) are the signature *)
      if len data <? 256 then Err (New "license file too small")
      else
        let licenseData := firstn (Z.to_nat (len data - 256)) data in
        let signature := skipn (Z.to_nat (len data - 256)) data in
        (* Try binary format first (v2.0.0+) *)
        match licformat.adapter.DecodeLicense licenseData with
        | Err err =>
            (* Fallback to legacy JSON format (v1.x) *)
            match json_Unmarshal licenseData with
            | Err jsonErr =>
                Err (Errorf2
                  "failed to parse license data: %v (binary format error: %v)"
                  jsonErr err)
            | Ok license => Ok (setSignature license signature)
            end
        | Ok importedLicense => Ok (ofFormat importedLicense signature)
        end
  end.

Definition VerifySignature (v : Verifier) (license : License)
    : option error :=
  (* Create a copy of the license without the signature *)
  let licenseCopy := withoutSignature license in
  (* Convert to binary format for verification *)
  let licenseFormatObj := toFormat licenseCopy in
  (* Try binary format first *)
  match licformat.adapter.EncodeLicense licenseFormatObj with
  | Err err => Some (Errorf "failed to encode license data: %v" err)
  | Ok licenseData =>
      let hashed := sha256_Sum256 licenseData in
      match rsa_VerifyPKCS1v15 (publicKey v) hashed (Signature license) with
      | None => None
      | Some err =>
          (* Try JSON format for backward compatibility *)
          match json_Marshal licenseCopy with
          | Err jsonErr =>
              Some (Errorf "failed to marshal license data: %v" jsonErr)
          | Ok jsonData =>
              let hashedJSON := sha256_Sum256 jsonData in
              match rsa_VerifyPKCS1v15 (publicKey v) hashedJSON
                      (Signature license) with
              | Some jsonVerifyErr =>
                  Some (Errorf
  "invalid license signature (tried both binary and JSON formats): %v"
                    err)
              | None => None
              end
          end
      end
  end.

(** [IsValid], given what [GetHardwareInfo()] and [time.Now()] return when
    they are called. *)
Definition IsValid (GetHardwareInfo : result hardware.HardwareInfo)
    (now : Time) (license : License) (verifier : Verifier) : option error :=
  (* Verify signature *)
  match VerifySignature verifier license with
  | Some err => Some err
  | None =>
      (* Verify hardware binding *)
      match VerifyHardwareBinding GetHardwareInfo license with
      | Some err => Some err
      | None =>
          (* Verify expiry *)
          match VerifyExpiry now license with
          | Some err => Some err
          | None => None
          end
      end
  end.

End Verifier.

End licverify.

Module licgen.

Section Generator.

Variable sha256_Sum256 : list byte -> list byte.
Variable rsa_SignPKCS1v15 : PrivateKey -> list byte -> result (list byte).

(** [SignData] signs data with the provided private key. *)
Definition SignData (data : list byte) (privateKey : PrivateKey)
    : result (list byte) :=
  let hashed := sha256_Sum256 data in
  match rsa_SignPKCS1v15 privateKey hashed with
  | Err err => Err (Errorf "failed to sign data: %v" err)
  | Ok signature => Ok signature
  end.

(** [GenerateLicense], given the two readings of [time.Now()]. *)
Definition GenerateLicense (now1 now2 : Time)
    (id customerID productID serialNumber : string) (expiryDuration : Z)
    (features : list string) (hardwareIDs : licverify.HardwareBinding)
    (privateKey : PrivateKey) : result (list byte) :=
  let license :=
    licverify.mkLicense id customerID productID serialNumber
      now1 (Add now2 expiryDuration) features hardwareIDs [] in
  let licenseFormatObj := licverify.toFormat license in
  match licformat.adapter.EncodeLicense licenseFormatObj with
  | Err err => Err (Errorf "failed to encode license: %v" err)
  | Ok licenseData =>
      match SignData licenseData privateKey with
      | Err err => Err (Errorf "failed to sign license: %v" err)
      | Ok signature => Ok (licenseData ++ signature)
      end
  end.

End Generator.

End licgen.

(** * The wire layout, as the format description gives it *)

Module wire.

Import licformat.

(** [u16 len + bytes]. *)
Definition str (s : string) : list byte :=
  PutUintLE 2 (uint16 (len (list_byte_of_string s)))
  ++ list_byte_of_string s.

(** [(u16 len + bytes)*]. *)
Definition strs (l : list string) : list byte := List.concat (map str l).

(** [u16 count + (u16 len + bytes)*]. *)
Definition slice (l : list string) : list byte :=
  PutUintLE 2 (uint16 (len l)) ++ strs l.

(** [i64], Unix seconds. *)
Definition i64 (t : Time) : list byte := PutUintLE 8 (uint64 (Unix t)).

Definition hardware (hw : HardwareBindingData) : list byte :=
  slice (MACAddresses hw) ++ slice (DiskIDs hw)
  ++ slice (HostNames hw) ++ slice (CustomIDs hw).

Definition body (d : LicenseData) : list byte :=
  str (ID d) ++ str (CustomerID d) ++ str (ProductID d)
  ++ str (SerialNumber d)
  ++ i64 (IssueDate d) ++ i64 (ExpiryDate d)
  ++ slice (Features d) ++ hardware (HardwareIDs d).

(** [byte version], [u32 body_length], then the body. *)
Definition layout (d : LicenseData) : list byte :=
  currentVersion :: PutUintLE 4 (uint32 (len (body d))) ++ body d.

(** The body up to the last list, the custom IDs. *)
Definition front (d : LicenseData) : list byte :=
  str (ID d) ++ str (CustomerID d) ++ str (ProductID d)
  ++ str (SerialNumber d)
  ++ i64 (IssueDate d) ++ i64 (ExpiryDate d)
  ++ slice (Features d)
  ++ slice (MACAddresses (HardwareIDs d)) ++ slice (DiskIDs (HardwareIDs d))
  ++ slice (HostNames (HardwareIDs d)).

End wire.

(** * Field widths *)

Module widths.

Import licformat.

(** [len([]byte(s))]. *)
Definition strlen (s : string) : Z := len (list_byte_of_string s).

Definition fits16 (n : Z) : bool := n <=? 65535.

(** The four identifiers fit the 16-bit length field and the five lists fit
    the 16-bit count field. *)
Definition fieldsFit (d : LicenseData) : bool :=
  fits16 (strlen (ID d)) && fits16 (strlen (CustomerID d))
  && fits16 (strlen (ProductID d)) && fits16 (strlen (SerialNumber d))
  && fits16 (len (Features d))
  && fits16 (len (MACAddresses (HardwareIDs d)))
  && fits16 (len (DiskIDs (HardwareIDs d)))
  && fits16 (len (HostNames (HardwareIDs d)))
  && fits16 (len (CustomIDs (HardwareIDs d))).

(** Every entry of a list fits the 16-bit length field. *)
Definition entriesFitIn (l : list string) : bool :=
  forallb (fun s => fits16 (strlen s)) l.

Definition entriesFit (d : LicenseData) : bool :=
  entriesFitIn (Features d)
  && entriesFitIn (MACAddresses (HardwareIDs d))
  && entriesFitIn (DiskIDs (HardwareIDs d))
  && entriesFitIn (HostNames (HardwareIDs d))
  && entriesFitIn (CustomIDs (HardwareIDs d)).

(** The list is empty or its last entry is not the empty string. *)
Definition endsNonEmpty (l : list string) : bool :=
  match l with
  | [] => true
  | _ :: _ => negb (String.eqb (last l "") "")
  end.

(** Equality of two payloads, their dates compared by [Unix()]. *)
Definition equalAtSeconds (p q : LicenseData) : Prop :=
  ID q = ID p /\ CustomerID q = CustomerID p /\ ProductID q = ProductID p
  /\ SerialNumber q = SerialNumber p
  /\ Unix (IssueDate q) = Unix (IssueDate p)
  /\ Unix (ExpiryDate q) = Unix (ExpiryDate p)
  /\ Features q = Features p /\ HardwareIDs q = HardwareIDs p.

End widths.

(** * Sample payloads *)

Module samples.

Import licformat.

(** 2024-01-01T00:00:00Z. *)
Definition t0 : Time := mkTime 1704067200 0.

Definition year : Z := 365 * 24 * 3600 * Second.

Definition unbound : HardwareBindingData := mkHardwareBindingData [] [] [] [].

(** The payload of the end-to-end scenario. *)
Definition L1 : LicenseData :=
  mkLicenseData "L1" "C1" "P1" "S1" t0 (Add t0 year) ["basic"] unbound.

(** A string of [n] zero bytes. *)
Definition zeros (n : Z) : string :=
  string_of_list_byte (repeat x00 (Z.to_nat n)).

(** One feature of 65536 bytes; every identifier and every count fits. *)
Definition longFeature : LicenseData :=
  mkLicenseData "L1" "C1" "P1" "S1" t0 (Add t0 year) [zeros 65536] unbound.

(** An identifier of 65536 bytes. *)
Definition longID : LicenseData :=
  mkLicenseData (zeros 65536) "C1" "P1" "S1" t0 (Add t0 year) ["basic"]
    unbound.

(** A payload whose encoding ends with the two bytes of a custom ID. *)
Definition customAB : LicenseData :=
  mkLicenseData "L1" "C1" "P1" "S1" t0 (Add t0 year) ["basic"]
    (mkHardwareBindingData [] [] [] ["ab"]).

(** What the decoder makes of that encoding with its last byte cut off:
    the custom ID is the byte that is left and a zero byte. *)
Definition customA0 : LicenseData :=
  mkLicenseData "L1" "C1" "P1" "S1" t0 (time_Unix (Unix (Add t0 year)))
    ["basic"]
    (mkHardwareBindingData [] [] [] [String "a" (String "000" "")]).

(** A payload whose last custom ID is the empty string. *)
Definition customEmpty : LicenseData :=
  mkLicenseData "L1" "C1" "P1" "S1" t0 (Add t0 year) ["basic"]
    (mkHardwareBindingData [] [] [] ["hw-1"; ""]).

End samples.

(** * The properties, as predicates *)

Module props.

Import licformat.
Import widths.

(** The payload [p] as the decoder rebuilds it when it reads [customIDs]
    for the last list: the dates are those [time.Unix] makes of the Unix
    seconds of the dates of [p]. *)
Definition decodedAs (p : LicenseData) (customIDs : list string)
    : LicenseData :=
  mkLicenseData (ID p) (CustomerID p) (ProductID p) (SerialNumber p)
    (time_Unix (Unix (IssueDate p))) (time_Unix (Unix (ExpiryDate p)))
    (Features p)
    (mkHardwareBindingData
       (MACAddresses (HardwareIDs p)) (DiskIDs (HardwareIDs p))
       (HostNames (HardwareIDs p)) customIDs).

(** Encoding succeeds and decoding its result gives the payload back. *)
Definition roundTrips (p : LicenseData) : Prop :=
  exists bytes q,
    EncodeLicenseData p = Ok bytes
    /\ DecodeLicenseData bytes = Ok q
    /\ equalAtSeconds p q.

(** The two inputs have the same length and the same byte at every offset
    other than 1, 2, 3 and 4. *)
Definition agreeOffBodyLength (d1 d2 : list byte) : Prop :=
  List.length d1 = List.length d2
  /\ forall i, (i < 1 \/ 4 < i)%nat -> nth_error d1 i = nth_error d2 i.

End props.

(** * Sample licenses, machines and stand-ins for the library routines *)

Module fixtures.

Import licverify.

Definition M1 : string := "00:11:22:33:44:55".
Definition M2 : string := "66:77:88:99:aa:bb".
Definition H1 : string := "host-1".
Definition H2 : string := "host-2".

(** What the stand-in signer below returns for a 2048-bit key. *)
Definition signature2048 : list byte := repeat xff 256.

(** A license naming MAC [M1] and hostname [H1], expiring a year after
    [samples.t0]. *)
Definition license_M1_H1 : License :=
  mkLicense "L1" "C1" "P1" "S1" samples.t0 (Add samples.t0 samples.year)
    ["basic"] (mkHardwareBinding [M1] [] [H1] []) signature2048.

(** The license of the end-to-end scenario: no hardware binding. *)
Definition license_unbound : License :=
  mkLicense "L1" "C1" "P1" "S1" samples.t0 (Add samples.t0 samples.year)
    ["basic"] (mkHardwareBinding [] [] [] []) signature2048.

(** A machine with MAC [M1] and hostname [H2]. *)
Definition machine_M1_H2 : hardware.HardwareInfo :=
  hardware.mkHardwareInfo [M2; M1] ["disk-1"] H2 "cpu".

(** A machine with MAC [M1] and hostname [H1]. *)
Definition machine_M1_H1 : hardware.HardwareInfo :=
  hardware.mkHardwareInfo [M2; M1] ["disk-1"] H1 "cpu".

(** A machine with neither. *)
Definition machine_M2_H2 : hardware.HardwareInfo :=
  hardware.mkHardwareInfo [M2] ["disk-1"] H2 "cpu".

(** One second after the licenses above expire. *)
Definition afterExpiry : Time :=
  Add (Add samples.t0 samples.year) Second.

(** A key whose modulus has 4096 bits, and one with 2048 bits. *)
Definition key4096 : PrivateKey :=
  mkPrivateKey (mkPublicKey (2 ^ 4095 + 1) 65537) 3.

Definition key2048 : PrivateKey :=
  mkPrivateKey (mkPublicKey (2 ^ 2047 + 1) 65537) 3.

Definition verifier4096 : Verifier := mkVerifier (Public key4096).

Definition verifier2048 : Verifier := mkVerifier (Public key2048).

(** Stand-ins for the library routines, for running the model: a digest
    that is the data itself, a signer that returns as many bytes as the
    modulus has, a verification that accepts exactly that signature, and
    JSON routines that always fail. *)
Definition digest (data : list byte) : list byte := data.

Definition sign (priv : PrivateKey) (hashed : list byte)
    : result (list byte) :=
  Ok (repeat xff (Z.to_nat (Size (Public priv)))).

Definition verify (pub : PublicKey) (hashed sig : list byte)
    : option error :=
  if (len sig =? Size pub) && forallb (Byte.eqb xff) sig then None
  else Some ErrVerification.

Definition marshal (license : License) : result (list byte) :=
  Err (New "json: unsupported").

Definition unmarshal (data : list byte) : result License :=
  Err (New "json: invalid character").

(** A file system holding one file. *)
Definition oneFile (name : string) (data : list byte) (path : string)
    : result (list byte) :=
  if String.eqb path name then Ok data
  else Err (New "open: no such file or directory").

(** A file system holding two files. *)
Definition twoFiles (name1 : string) (data1 : list byte)
    (name2 : string) (data2 : list byte) (path : string)
    : result (list byte) :=
  if String.eqb path name1 then Ok data1 else oneFile name2 data2 path.

(** The encoding of the scenario payload, and the same bytes with the
    body length overwritten. *)
Definition payload_L1 : list byte := wire.layout samples.L1.

Definition payload_L1_relabelled : list byte :=
  licformat.PutUint32_at_1 payload_L1 4294967295.

(** What both are decoded to. *)
Definition decoded_L1 : licformat.adapter.License :=
  licformat.adapter.mkLicense "L1" "C1" "P1" "S1" samples.t0
    (time_Unix (Unix (Add samples.t0 samples.year))) ["basic"]
    (licformat.adapter.mkHardwareBinding [] [] [] []) [].

Fixpoint bytes_eqb (a b : list byte) : bool :=
  match a, b with
  | [], [] => true
  | x :: a', y :: b' => Byte.eqb x y && bytes_eqb a' b'
  | _, _ => false
  end.

(** A verification that accepts the digest of [expected] and nothing
    else. *)
Definition verifyOnly (expected : list byte) (pub : PublicKey)
    (hashed sig : list byte) : option error :=
  if bytes_eqb hashed (digest expected) then None else Some ErrVerification.

(** The scenario license as [GenerateLicense] writes it under the 4096-bit
    key, and as [LoadLicense] reads it back. *)
Definition file4096 : list byte :=
  match
    licgen.GenerateLicense digest sign samples.t0 samples.t0
      "L1" "C1" "P1" "S1" samples.year ["basic"]
      (mkHardwareBinding [] [] [] []) key4096
  with
  | Ok licenseFile => licenseFile
  | Err _ => []
  end.

Definition loaded4096 : License :=
  match
    LoadLicense unmarshal (oneFile "license.lic" file4096) verifier4096
      "license.lic"
  with
  | Ok license => license
  | Err _ => license_unbound
  end.

End fixtures.

(** * hardware.go: detecting the machine *)

Module detect.

Import licverify.

(** [net.FlagUp] and [net.FlagLoopback], bits of [net.Flags]. *)
Definition net_FlagUp : Z := 1.
Definition net_FlagLoopback : Z := 4.

(** [net.Interface], reduced to the two fields the code reads. *)
Record Interface : Type := mkInterface {
  Flags : Z;
  HardwareAddr : list byte
}.

Definition hexDigit : list byte := list_byte_of_string "0123456789abcdef".

(** The body of the loop of [HardwareAddr.String]: a colon before every
    byte but the first, then the two hexadecimal digits of the byte. *)
Fixpoint HardwareAddr_loop (i : nat) (a : list byte) (buf : list byte)
    : list byte :=
  match a with
  | [] => buf
  | b :: a' =>
      let buf := if (0 <? i)%nat then buf ++ [":"%byte] else buf in
      let buf :=
        buf ++ [nth (Z.to_nat (Z.shiftr (Z_of_byte b) 4)) hexDigit x00] in
      let buf :=
        buf ++ [nth (Z.to_nat (Z.land (Z_of_byte b) 15)) hexDigit x00] in
      HardwareAddr_loop (S i) a' buf
  end.

(** [a.String()] for a [net.HardwareAddr]. *)
Definition HardwareAddr_String (a : list byte) : string :=
  if len a =? 0 then ""
  else string_of_list_byte (HardwareAddr_loop 0 a []).

(** The test of the loop of [getMACAddresses]: up, not loopback, with a
    hardware address. *)
Definition usable (iface : Interface) : bool :=
  negb (Z.land (Flags iface) net_FlagUp =? 0)
  && (Z.land (Flags iface) net_FlagLoopback =? 0)
  && (0 <? widths.strlen (HardwareAddr_String (HardwareAddr iface))).

(** [getMACAddresses], given what [net.Interfaces()] returned. *)
Definition getMACAddresses (net_Interfaces : result (list Interface))
    : result (list string) :=
  match net_Interfaces with
  | Err err => Err err
  | Ok interfaces =>
      let macAddresses :=
        fold_left
          (fun macAddresses iface =>
             if usable iface
             then macAddresses ++ [HardwareAddr_String (HardwareAddr iface)]
             else macAddresses)
          interfaces [] in
      if len macAddresses =? 0
      then Err (New "no valid MAC addresses found")
      else Ok macAddresses
  end.

(** What the machine answers: the interfaces, the operating system and
    architecture the program was built for, the outcome of the disk and CPU
    queries of each operating system, and the host name. *)
Record Host : Type := mkHost {
  net_Interfaces : result (list Interface);
  GOOS : string;
  GOARCH : string;
  getLinuxDiskIDs : result (list string);
  getWindowsDiskIDs : result (list string);
  getMacOSDiskIDs : result (list string);
  getLinuxCPUInfo : result string;
  getWindowsCPUInfo : result string;
  getMacOSCPUInfo : result string;
  os_Hostname : result string
}.

Definition getDiskIDs (host : Host) : result (list string) :=
  if String.eqb (GOOS host) "linux" then getLinuxDiskIDs host
  else if String.eqb (GOOS host) "windows" then getWindowsDiskIDs host
  else if String.eqb (GOOS host) "darwin" then getMacOSDiskIDs host
  else Ok ["unknown-os-disk-id"].

Definition getCPUInfo (host : Host) : result string :=
  if String.eqb (GOOS host) "linux" then getLinuxCPUInfo host
  else if String.eqb (GOOS host) "windows" then getWindowsCPUInfo host
  else if String.eqb (GOOS host) "darwin" then getMacOSCPUInfo host
  else Ok (GOARCH host ++ "-unknown-cpu")%string.

Definition GetHardwareInfo (host : Host) : result hardware.HardwareInfo :=
  match getMACAddresses (net_Interfaces host) with
  | Err err => Err (Errorf "failed to get MAC addresses: %v" err)
  | Ok macs =>
      match getDiskIDs host with
      | Err err => Err (Errorf "failed to get disk IDs: %v" err)
      | Ok diskIDs =>
          match os_Hostname host with
          | Err err => Err (Errorf "failed to get hostname: %v" err)
          | Ok hostname =>
              match getCPUInfo host with
              | Err err => Err (Errorf "failed to get CPU info: %v" err)
              | Ok cpuInfo =>
                  Ok (hardware.mkHardwareInfo macs diskIDs hostname cpuInfo)
              end
          end
      end
  end.

End detect.

(** * Sizes *)

Module sizes.

Import licformat.

(** The bytes a list of strings takes after its count: two for each length
    field and the bytes of each string. *)
Definition entriesSize (l : list string) : Z :=
  fold_right (fun s n => 2 + widths.strlen s + n) 0 l.

(** The header, four length fields, two dates and five counts: 39 bytes;
    then the bytes of the strings and the length fields of the entries. *)
Definition encodedSize (d : LicenseData) : Z :=
  39 + widths.strlen (ID d) + widths.strlen (CustomerID d)
  + widths.strlen (ProductID d) + widths.strlen (SerialNumber d)
  + entriesSize (Features d)
  + entriesSize (MACAddresses (HardwareIDs d))
  + entriesSize (DiskIDs (HardwareIDs d))
  + entriesSize (HostNames (HardwareIDs d))
  + entriesSize (CustomIDs (HardwareIDs d)).

End sizes.

(** * Sample machines *)

Module machines.

Import detect.

(** An Ethernet card that is up, the loopback interface, and a card that
    is down. *)
Definition eth0 : Interface :=
  mkInterface 19 [x00; x11; x22; x33; x44; x55].

Definition lo : Interface := mkInterface 5 [].

Definition eth1 : Interface :=
  mkInterface 18 [x66; x77; x88; x99; xaa; xbb].

(** A Linux machine with the three of them, and one with only the
    loopback interface. *)
Definition linuxBox (interfaces : list Interface) : Host :=
  mkHost (Ok interfaces) "linux" "amd64"
    (Ok ["disk-1"]) (Ok []) (Ok [])
    (Ok "cpu") (Ok "") (Ok "") (Ok fixtures.H1).

Definition wired : Host := linuxBox [lo; eth0; eth1].

Definition isolated : Host := linuxBox [lo; eth1].

End machines.

(** * A license from issue to load *)

Module issue.

Import licverify.

(** The license [GenerateLicense] builds before it encodes it. *)
Definition issued (now1 now2 : Time)
    (id customerID productID serialNumber : string) (expiryDuration : Z)
    (features : list string) (hardwareIDs : HardwareBinding) : License :=
  mkLicense id customerID productID serialNumber now1
    (Add now2 expiryDuration) features hardwareIDs [].

(** The payload that is encoded for a license. *)
Definition payloadOf (license : License) : licformat.LicenseData :=
  licformat.adapter.ToLicenseData (toFormat license).

(** A license as it comes back from its binary encoding: its dates are
    those [time.Unix] makes of their Unix seconds, and its signature is the
    one given. *)
Definition reloaded (license : License) (signature : list byte) : License :=
  mkLicense (ID license) (CustomerID license) (ProductID license)
    (SerialNumber license)
    (time_Unix (Unix (IssueDate license)))
    (time_Unix (Unix (ExpiryDate license)))
    (Features license) (HardwareIDs license) signature.

(** The same for the license of the adapter, which comes back without a
    signature. *)
Definition redecoded (license : licformat.adapter.License)
    : licformat.adapter.License :=
  licformat.adapter.mkLicense
    (licformat.adapter.ID license) (licformat.adapter.CustomerID license)
    (licformat.adapter.ProductID license)
    (licformat.adapter.SerialNumber license)
    (time_Unix (Unix (licformat.adapter.IssueDate license)))
    (time_Unix (Unix (licformat.adapter.ExpiryDate license)))
    (licformat.adapter.Features license)
    (licformat.adapter.HardwareIDs license) [].

(** A time in the range of [Unix()], with a nanosecond that is not
    negative. *)
Definition representable (t : Time) : Prop :=
  - 2 ^ 63 <= seconds t < 2 ^ 63 /\ 0 <= nanosecond t.

End issue.

(** * Properties *)

(** ** Bytes and little-endian integers *)

Lemma Z_of_byte_range (b : byte) : 0 <= Z_of_byte b < 256.
Proof.
  unfold Z_of_byte. pose proof (Byte.to_N_bounded b). lia.
Qed.

Lemma Z_of_byte_of_Z (v : Z) : Z_of_byte (byte_of_Z v) = v mod 256.
Proof.
  unfold Z_of_byte, byte_of_Z.
  assert (Hr : 0 <= v mod 256 < 256) by (apply Z.mod_pos_bound; lia).
  destruct (Byte.of_N (Z.to_N (v mod 256))) as [b|] eqn:Hb.
  - apply Byte.to_of_N in Hb. rewrite Hb. lia.
  - apply Byte.of_N_None_iff in Hb. lia.
Qed.

Lemma byte_of_Z_of_byte (b : byte) : byte_of_Z (Z_of_byte b) = b.
Proof.
  unfold byte_of_Z.
  rewrite Z.mod_small by apply Z_of_byte_range.
  unfold Z_of_byte. rewrite N2Z.id, Byte.of_to_N. reflexivity.
Qed.

Lemma lor_shiftl_8 (a b : Z) :
  0 <= a < 256 -> Z.lor a (Z.shiftl b 8) = a + 256 * b.
Proof.
  intros Ha.
  assert (Hdisj : Z.land a (Z.shiftl b 8) = 0).
  { apply Z.bits_inj'. intros n Hn.
    rewrite Z.land_spec, Z.bits_0.
    destruct (Z.ltb_spec n 8) as [Hlt|Hge].
    - rewrite Z.shiftl_spec_low by lia. apply andb_false_r.
    - replace a with (a mod 2 ^ 8) by (apply Z.mod_small; lia).
      rewrite Z.mod_pow2_bits_high by lia. reflexivity. }
  rewrite <- Z.lxor_lor by assumption.
  rewrite <- Z.add_nocarry_lxor by assumption.
  rewrite Z.shiftl_mul_pow2 by lia. lia.
Qed.

Lemma length_PutUintLE (n : nat) (v : Z) : List.length (PutUintLE n v) = n.
Proof.
  revert v. induction n as [|n IH]; intros v; simpl; [|rewrite IH]; easy.
Qed.

Lemma UintLE_range (bs : list byte) :
  0 <= UintLE bs < 2 ^ (8 * len bs).
Proof.
  unfold len. induction bs as [|b bs IH].
  - simpl. lia.
  - cbn [UintLE List.length].
    rewrite lor_shiftl_8 by apply Z_of_byte_range.
    pose proof (Z_of_byte_range b).
    replace (8 * Z.of_nat (S (List.length bs)))
      with (8 + 8 * Z.of_nat (List.length bs)) by lia.
    rewrite Z.pow_add_r by lia. change (2 ^ 8) with 256. nia.
Qed.

Lemma UintLE_PutUintLE (n : nat) (v : Z) :
  UintLE (PutUintLE n v) = v mod 2 ^ (8 * Z.of_nat n).
Proof.
  revert v. induction n as [|n IH]; intros v.
  - simpl. rewrite Z.mod_1_r. reflexivity.
  - cbn [PutUintLE UintLE].
    rewrite lor_shiftl_8 by apply Z_of_byte_range.
    rewrite Z_of_byte_of_Z, IH, Z.shiftr_div_pow2 by lia.
    replace (8 * Z.of_nat (S n)) with (8 + 8 * Z.of_nat n) by lia.
    rewrite Z.pow_add_r by lia. change (2 ^ 8) with 256.
    rewrite Z.rem_mul_r by lia. reflexivity.
Qed.

Lemma PutUintLE_UintLE (bs : list byte) :
  PutUintLE (List.length bs) (UintLE bs) = bs.
Proof.
  induction bs as [|b bs IH]; [reflexivity|].
  cbn [List.length PutUintLE UintLE].
  rewrite lor_shiftl_8 by apply Z_of_byte_range.
  pose proof (Z_of_byte_range b) as Hb.
  assert (Hlow : (Z_of_byte b + 256 * UintLE bs) mod 256 = Z_of_byte b).
  { rewrite Z.mul_comm, Z.mod_add by lia.
    apply Z.mod_small. lia. }
  assert (Hhigh : (Z_of_byte b + 256 * UintLE bs) / 256 = UintLE bs).
  { rewrite Z.mul_comm, Z.div_add by lia.
    rewrite Z.div_small by lia. lia. }
  f_equal.
  - unfold byte_of_Z at 1. rewrite Hlow.
    rewrite <- (byte_of_Z_of_byte b) at 2.
    unfold byte_of_Z. rewrite Z.mod_small by lia. reflexivity.
  - rewrite Z.shiftr_div_pow2 by lia. change (2 ^ 8) with 256.
    rewrite Hhigh. exact IH.
Qed.

Lemma int64_range (z : Z) : - 2 ^ 63 <= int64 z < 2 ^ 63.
Proof.
  unfold int64.
  pose proof (Z.mod_pos_bound (z + 2 ^ 63) (2 ^ 64)). lia.
Qed.

Lemma int64_small (z : Z) : - 2 ^ 63 <= z < 2 ^ 63 -> int64 z = z.
Proof.
  intros Hz. unfold int64. rewrite Z.mod_small; lia.
Qed.

Lemma int64_uint64 (z : Z) : int64 (uint64 z) = int64 z.
Proof.
  unfold int64, uint64.
  rewrite Zplus_mod_idemp_l. reflexivity.
Qed.

Lemma int64_idem (z : Z) : int64 (int64 z) = int64 z.
Proof. apply int64_small, int64_range. Qed.

Lemma int64_add_mul (z k : Z) : int64 (z + k * 2 ^ 64) = int64 z.
Proof.
  unfold int64.
  replace (z + k * 2 ^ 64 + 2 ^ 63) with (z + 2 ^ 63 + k * 2 ^ 64) by ring.
  now rewrite Z.mod_add by lia.
Qed.

(** [time.Unix(sec, 0).Unix()] gives [sec] back, as an [int64]: the wrap
    of [time.Unix] is undone by [Unix()]. *)
Lemma Unix_time_Unix (sec : Z) : Unix (time_Unix sec) = int64 sec.
Proof.
  unfold Unix, time_Unix. cbn [seconds]. unfold int64 at 2.
  rewrite Z.mod_eq by lia.
  replace (sec + unixToInternal + 2 ^ 63
           - 2 ^ 64 * ((sec + unixToInternal + 2 ^ 63) / 2 ^ 64)
           - 2 ^ 63 - unixToInternal)
    with (sec + - ((sec + unixToInternal + 2 ^ 63) / 2 ^ 64) * 2 ^ 64)
    by ring.
  apply int64_add_mul.
Qed.

Lemma int64_Unix (t : Time) : int64 (Unix t) = Unix t.
Proof. apply int64_idem. Qed.

(** Within the range that [time.Unix] keeps without wrapping, the time is
    at [sec] seconds; beyond it, [2^64] seconds before. *)
Lemma time_Unix_small (sec : Z) :
  - 2 ^ 63 <= sec + unixToInternal < 2 ^ 63 ->
  time_Unix sec = mkTime sec 0.
Proof.
  intros H. unfold time_Unix. rewrite int64_small by assumption.
  f_equal. ring.
Qed.

(** The last second of the [int64] range is kept as a time [2^64]
    seconds earlier, long before the epoch. *)
Lemma time_Unix_wraps :
  seconds (time_Unix (2 ^ 63 - 1)) = 2 ^ 63 - 1 - 2 ^ 64.
Proof. reflexivity. Qed.

Lemma time_Unix_le (sec : Z) :
  - 2 ^ 63 <= sec < 2 ^ 63 ->
  seconds (time_Unix sec) <= sec /\ nanosecond (time_Unix sec) = 0.
Proof.
  intros H. unfold time_Unix. cbn [seconds nanosecond]. split; [|reflexivity].
  unfold int64, unixToInternal in *. rewrite Z.mod_eq by lia.
  assert (0 <= (sec + 62135596800 + 2 ^ 63) / 2 ^ 64)
    by (apply Z.div_pos; lia).
  lia.
Qed.

(** ** The encoder writes the wire layout *)

Section Encoder.

Import licformat.

Lemma writeString_layout (buf : Buffer) (s : string) :
  writeString buf s = buf ++ wire.str s.
Proof.
  unfold writeString, binary_Write_uint16, Buffer_Write, wire.str.
  now rewrite app_assoc.
Qed.

Lemma writeStrings_layout (l : list string) (buf : Buffer) :
  fold_left writeString l buf = buf ++ wire.strs l.
Proof.
  revert buf. induction l as [|s l IH]; intros buf.
  - simpl. now rewrite app_nil_r.
  - cbn [fold_left]. rewrite IH, writeString_layout.
    unfold wire.strs. cbn [map List.concat]. now rewrite app_assoc.
Qed.

Lemma writeStringSlice_layout (buf : Buffer) (l : list string) :
  writeStringSlice buf l = buf ++ wire.slice l.
Proof.
  unfold writeStringSlice, binary_Write_uint16, Buffer_Write, wire.slice.
  rewrite writeStrings_layout. now rewrite app_assoc.
Qed.

Lemma binary_Write_int64_layout (buf : Buffer) (t : Time) :
  binary_Write_int64 buf (Unix t) = buf ++ wire.i64 t.
Proof. reflexivity. Qed.

(** The bytes [EncodeLicenseData] returns are the wire layout of the
    payload; it returns them for every payload. *)
Lemma EncodeLicenseData_layout (d : LicenseData) :
  EncodeLicenseData d = Ok (wire.layout d).
Proof.
  unfold EncodeLicenseData.
  rewrite !writeString_layout, !binary_Write_int64_layout,
    !writeStringSlice_layout.
  unfold binary_Write_header, Buffer_Write. cbn [Version Length app].
  repeat rewrite <- app_assoc.
  fold (wire.hardware (HardwareIDs d)).
  fold (wire.body d).
  change (PutUintLE 4 0) with [x00; x00; x00; x00].
  unfold PutUint32_at_1. cbn [app firstn skipn].
  unfold wire.layout, len. cbn [List.length].
  replace (Z.of_nat (S (S (S (S (S (List.length (wire.body d)))))))
           - Z.of_nat 5)
    with (Z.of_nat (List.length (wire.body d))) by lia.
  reflexivity.
Qed.

End Encoder.

(** ** Reading back what the encoder wrote *)

Ltac split_andb :=
  repeat match goal with
         | H : _ && _ = true |- _ => apply andb_prop in H; destruct H
         end.

Section Decoder.

Import licformat.
Import widths.

Lemma bind_Ok {A B} (m : Dec A) (k : A -> Dec B) (r r' : Reader) (a : A) :
  m r = Ok (a, r') -> bind m k r = k a r'.
Proof. intros H. unfold bind. now rewrite H. Qed.

Lemma bind_Err {A B} (m : Dec A) (k : A -> Dec B) (r : Reader) (e : error) :
  m r = Err e -> bind m k r = Err e.
Proof. intros H. unfold bind. now rewrite H. Qed.

Lemma io_ReadFull_app (bs rest : list byte) :
  io_ReadFull (List.length bs) (bs ++ rest) = Ok (bs, rest).
Proof.
  unfold io_ReadFull.
  rewrite length_app.
  destruct (Nat.leb_spec (List.length bs) (List.length bs + List.length rest))
    as [_|Hlt]; [|lia].
  rewrite firstn_app, skipn_app, Nat.sub_diag, firstn_all, skipn_all.
  cbn [firstn skipn]. now rewrite app_nil_r.
Qed.

Lemma binary_Read_uint16_PutUintLE (v : Z) (rest : list byte) :
  binary_Read_uint16 (PutUintLE 2 v ++ rest) = Ok (uint16 v, rest).
Proof.
  unfold binary_Read_uint16.
  rewrite bind_Ok with (a := PutUintLE 2 v) (r' := rest).
  - unfold ret. now rewrite UintLE_PutUintLE.
  - rewrite <- (length_PutUintLE 2 v) at 1. apply io_ReadFull_app.
Qed.

Lemma binary_Read_int64_layout (t : Time) (rest : list byte) :
  binary_Read_int64 (wire.i64 t ++ rest) = Ok (Unix t, rest).
Proof.
  unfold binary_Read_int64, wire.i64.
  rewrite bind_Ok with (a := PutUintLE 8 (uint64 (Unix t))) (r' := rest).
  - unfold ret. rewrite UintLE_PutUintLE. f_equal. f_equal.
    change (2 ^ (8 * Z.of_nat 8)) with (2 ^ 64).
    fold (uint64 (uint64 (Unix t))).
    rewrite !int64_uint64. apply int64_idem.
  - rewrite <- (length_PutUintLE 8 (uint64 (Unix t))) at 1.
    apply io_ReadFull_app.
Qed.

(** A read of exactly the bytes that are there, when there are some. *)
Lemma Reader_Read_app (bs rest : list byte) :
  bs ++ rest <> [] ->
  Reader_Read (List.length bs) (bs ++ rest) = Ok (bs, rest).
Proof.
  intros Hne. unfold Reader_Read.
  destruct (bs ++ rest) as [|b r] eqn:Hr; [congruence|].
  rewrite <- Hr.
  rewrite firstn_app, skipn_app, Nat.sub_diag, firstn_all, skipn_all.
  rewrite length_app.
  replace (List.length bs - (List.length bs + List.length rest))%nat
    with 0%nat by lia.
  cbn [firstn skipn repeat]. now rewrite !app_nil_r.
Qed.

Lemma uint16_fits (n : Z) : 0 <= n -> fits16 n = true -> uint16 n = n.
Proof.
  unfold fits16, uint16. intros H0 Hn. apply Z.leb_le in Hn.
  apply Z.mod_small. lia.
Qed.

Lemma strlen_nonneg (s : string) : 0 <= strlen s.
Proof. unfold strlen, len. lia. Qed.

Lemma list_byte_of_string_nil (s : string) :
  list_byte_of_string s = [] -> s = "".
Proof.
  intros H. rewrite <- (string_of_list_byte_of_string s), H. reflexivity.
Qed.

(** A string that fits its length field is read back, unless it is empty
    and nothing follows it. *)
Lemma readString_layout (s : string) (rest : list byte) :
  fits16 (strlen s) = true ->
  s <> "" \/ rest <> [] ->
  readString (wire.str s ++ rest) = Ok (s, rest).
Proof.
  intros Hfit Hne. unfold readString, wire.str.
  rewrite <- app_assoc.
  rewrite bind_Ok with (1 := binary_Read_uint16_PutUintLE _ _).
  fold (strlen s). rewrite !(uint16_fits (strlen_nonneg s) Hfit).
  rewrite bind_Ok with (a := list_byte_of_string s) (r' := rest).
  - unfold ret. now rewrite string_of_list_byte_of_string.
  - unfold strlen, len. rewrite Nat2Z.id. apply Reader_Read_app.
    intros Hnil. apply app_eq_nil in Hnil as [Hs Hr].
    destruct Hne as [Hne|Hne]; [|easy].
    apply Hne, list_byte_of_string_nil, Hs.
Qed.

Lemma str_app_nonempty (s : string) (rest : list byte) :
  wire.str s ++ rest <> [].
Proof. unfold wire.str. cbn [PutUintLE app]. discriminate. Qed.

Lemma slice_app_nonempty (l : list string) (rest : list byte) :
  wire.slice l ++ rest <> [].
Proof. unfold wire.slice. cbn [PutUintLE app]. discriminate. Qed.

Lemma i64_app_nonempty (t : Time) (rest : list byte) :
  wire.i64 t ++ rest <> [].
Proof. unfold wire.i64. cbn [PutUintLE app]. discriminate. Qed.

Lemma endsNonEmpty_cons (s : string) (l : list string) :
  endsNonEmpty (s :: l) = true ->
  endsNonEmpty l = true /\ (l = [] -> s <> "").
Proof.
  destruct l as [|s' l].
  - cbn. intros H. split; [reflexivity|]. intros _ ->. discriminate.
  - intros H. split; [exact H | discriminate].
Qed.

(** The entries of a list are read back, in order, unless the last one is
    empty and nothing follows it. *)
Lemma readStrings_layout (l : list string) (rest : list byte) :
  entriesFitIn l = true ->
  rest <> [] \/ endsNonEmpty l = true ->
  readStrings (List.length l) (wire.strs l ++ rest) = Ok (l, rest).
Proof.
  induction l as [|s l IH]; intros Hfit Hend; [reflexivity|].
  unfold entriesFitIn in Hfit. cbn [forallb] in Hfit.
  apply andb_prop in Hfit as [Hs Hl].
  unfold wire.strs. cbn [List.length readStrings map List.concat].
  fold (wire.strs l). rewrite <- app_assoc.
  assert (Hl' : rest <> [] \/ endsNonEmpty l = true).
  { destruct Hend as [?|Hend]; [now left|].
    right. now apply endsNonEmpty_cons in Hend. }
  assert (Hs' : s <> "" \/ wire.strs l ++ rest <> []).
  { destruct l as [|s' l].
    - destruct Hend as [?|Hend]; [now right|].
      left. now apply endsNonEmpty_cons in Hend as [_ Hend]; apply Hend.
    - right. unfold wire.strs. cbn [map List.concat].
      rewrite <- app_assoc. apply str_app_nonempty. }
  rewrite bind_Ok with (1 := readString_layout Hs Hs').
  rewrite bind_Ok with (1 := IH Hl Hl'). reflexivity.
Qed.

Lemma readStringSlice_layout (l : list string) (rest : list byte) :
  fits16 (len l) = true ->
  entriesFitIn l = true ->
  rest <> [] \/ endsNonEmpty l = true ->
  readStringSlice (wire.slice l ++ rest) = Ok (l, rest).
Proof.
  intros Hcount Hfit Hend. unfold readStringSlice, wire.slice.
  rewrite <- app_assoc.
  rewrite bind_Ok with (1 := binary_Read_uint16_PutUintLE _ _).
  assert (H0 : 0 <= len l) by (unfold len; lia).
  rewrite !(uint16_fits H0 Hcount).
  unfold len. rewrite Nat2Z.id. now apply readStrings_layout.
Qed.

Lemma binary_Read_header_layout (v : byte) (n : Z) (rest : list byte) :
  binary_Read_header (v :: PutUintLE 4 n ++ rest)
  = Ok (mkHeader v (uint32 n), rest).
Proof.
  unfold binary_Read_header.
  rewrite bind_Ok with (a := v :: PutUintLE 4 n) (r' := rest).
  - unfold ret. cbn [hd tl]. now rewrite UintLE_PutUintLE.
  - change (v :: PutUintLE 4 n ++ rest) with ((v :: PutUintLE 4 n) ++ rest).
    replace 5%nat with (List.length (v :: PutUintLE 4 n))
      by (cbn [List.length]; now rewrite length_PutUintLE).
    apply io_ReadFull_app.
Qed.

Lemma slice_nonempty (l : list string) : wire.slice l <> [].
Proof. unfold wire.slice. cbn [PutUintLE app]. discriminate. Qed.

Lemma strs_app (l1 l2 : list string) :
  wire.strs (l1 ++ l2) = wire.strs l1 ++ wire.strs l2.
Proof. unfold wire.strs. now rewrite map_app, concat_app. Qed.

Lemma body_front (p : LicenseData) :
  wire.body p = wire.front p ++ wire.slice (CustomIDs (HardwareIDs p)).
Proof.
  unfold wire.body, wire.hardware, wire.front.
  repeat rewrite <- app_assoc. reflexivity.
Qed.

(** The decoder on the header and the front of a body, followed by
    anything: it rebuilds the fields of the front and goes on with the last
    list. *)
Lemma decodeBody_front (p : LicenseData) (n : Z) (tail : list byte) :
  fieldsFit p = true ->
  entriesFit p = true ->
  tail <> [] ->
  decodeBody (currentVersion :: PutUintLE 4 n ++ wire.front p ++ tail)
  = (customIDs <- readStringSlice ;; ret (props.decodedAs p customIDs)) tail.
Proof.
  intros Hfields Hentries Htail.
  unfold fieldsFit in Hfields. unfold entriesFit in Hentries. split_andb.
  unfold decodeBody, wire.front.
  repeat rewrite <- app_assoc.
  rewrite bind_Ok with (1 := binary_Read_header_layout _ _ _).
  cbn [Version]. change (Byte.eqb currentVersion currentVersion) with true.
  cbn [negb].
  do 4 (erewrite bind_Ok
          by (apply readString_layout;
              [assumption
              | right; first [apply str_app_nonempty
                             | apply i64_app_nonempty]])).
  do 2 (erewrite bind_Ok by apply binary_Read_int64_layout).
  do 4 (erewrite bind_Ok
          by (apply readStringSlice_layout;
              [assumption | assumption
              | left; first [apply slice_app_nonempty | assumption]])).
  reflexivity.
Qed.

Lemma len_layout_ge_5 (p : LicenseData) : (len (wire.layout p) <? 5) = false.
Proof.
  unfold wire.layout, len. cbn [PutUintLE app List.length].
  apply Z.ltb_ge. lia.
Qed.

(** *** A last string cut short, and an empty last string *)

(** A read of more bytes than there are, when there are some: no error,
    and zero bytes where the input ran out. *)
Lemma Reader_Read_short (n : nat) (r : Reader) :
  r <> [] ->
  (List.length r <= n)%nat ->
  Reader_Read n r = Ok (r ++ repeat x00 (n - List.length r), []).
Proof.
  intros Hne Hlen. unfold Reader_Read.
  destruct r as [|b r]; [congruence|].
  now rewrite firstn_all2, skipn_all2 by assumption.
Qed.

Lemma readString_truncated (s : string) (kept cut : list byte) :
  fits16 (strlen s) = true ->
  list_byte_of_string s = kept ++ cut ->
  kept <> [] ->
  readString (PutUintLE 2 (uint16 (strlen s)) ++ kept)
  = Ok (string_of_list_byte (kept ++ repeat x00 (List.length cut)), []).
Proof.
  intros Hfit Hs Hkept. unfold readString.
  rewrite bind_Ok with (1 := binary_Read_uint16_PutUintLE _ _).
  rewrite !(uint16_fits (strlen_nonneg s) Hfit).
  unfold strlen, len. rewrite Nat2Z.id, Hs, length_app.
  rewrite bind_Ok
    with (a := kept ++ repeat x00 (List.length cut)) (r' := []);
    [reflexivity|].
  rewrite Reader_Read_short by (assumption || lia).
  replace (List.length kept + List.length cut - List.length kept)%nat
    with (List.length cut) by lia.
  reflexivity.
Qed.

Lemma readStrings_truncated (l : list string) (s : string)
    (kept cut : list byte) :
  entriesFitIn l = true ->
  fits16 (strlen s) = true ->
  list_byte_of_string s = kept ++ cut ->
  kept <> [] ->
  readStrings (List.length (l ++ [s]))
    (wire.strs l ++ PutUintLE 2 (uint16 (strlen s)) ++ kept)
  = Ok (l ++ [string_of_list_byte (kept ++ repeat x00 (List.length cut))],
        []).
Proof.
  intros Hl Hfit Hs Hkept. induction l as [|s0 l IH].
  - cbn [app List.length readStrings wire.strs map List.concat].
    now rewrite bind_Ok with (1 := readString_truncated s cut Hfit Hs Hkept).
  - unfold entriesFitIn in Hl. cbn [forallb] in Hl.
    apply andb_prop in Hl as [Hs0 Hl].
    unfold wire.strs. cbn [app List.length readStrings map List.concat].
    fold (wire.strs l). rewrite <- app_assoc.
    assert (Hne : s0 <> ""
                  \/ wire.strs l ++ PutUintLE 2 (uint16 (strlen s)) ++ kept
                     <> []).
    { right. intros Hnil. apply app_eq_nil in Hnil as [_ Hnil].
      cbn [PutUintLE app] in Hnil. discriminate. }
    rewrite bind_Ok with (1 := readString_layout Hs0 Hne).
    now rewrite bind_Ok with (1 := IH Hl).
Qed.

Lemma readStrings_last_empty (l : list string) :
  entriesFitIn l = true ->
  readStrings (List.length (l ++ [""])) (wire.strs (l ++ [""])) = Err EOF.
Proof.
  intros Hl. induction l as [|s0 l IH].
  - reflexivity.
  - unfold entriesFitIn in Hl. cbn [forallb] in Hl.
    apply andb_prop in Hl as [Hs0 Hl].
    unfold wire.strs. cbn [app List.length readStrings map List.concat].
    fold (wire.strs (l ++ [""])).
    assert (Hne : s0 <> "" \/ wire.strs (l ++ [""]) <> []).
    { right. rewrite strs_app. intros Hnil.
      apply app_eq_nil in Hnil as [_ Hnil]. discriminate. }
    rewrite bind_Ok with (1 := readString_layout Hs0 Hne).
    now rewrite bind_Err with (1 := IH Hl).
Qed.

Lemma firstn_app_cut {A} (kept cut : list A) :
  firstn (List.length (kept ++ cut) - List.length cut) (kept ++ cut) = kept.
Proof.
  rewrite length_app, Nat.add_sub, firstn_app, Nat.sub_diag, firstn_all.
  cbn [firstn]. apply app_nil_r.
Qed.

Lemma endsNonEmpty_false (l : list string) :
  endsNonEmpty l = false -> exists l', l = l' ++ [""].
Proof.
  intros H. destruct l as [|s l]; [discriminate|].
  exists (removelast (s :: l)).
  rewrite (app_removelast_last "") at 1 by discriminate.
  f_equal. f_equal.
  unfold endsNonEmpty in H. apply negb_false_iff, String.eqb_eq in H.
  exact H.
Qed.

End Decoder.

(** ** The codec: round trip, widths, truncation, the length field *)

Section Codec.

Import licformat.
Import widths.

Lemma DecodeLicenseData_front (p : LicenseData) (n : Z)
    (tail : list byte) :
  fieldsFit p = true ->
  entriesFit p = true ->
  tail <> [] ->
  DecodeLicenseData
    (currentVersion :: PutUintLE 4 n ++ wire.front p ++ tail)
  = match readStringSlice tail with
    | Ok (customIDs, _) => Ok (props.decodedAs p customIDs)
    | Err e => Err e
    end.
Proof.
  intros Hfields Hentries Htail. unfold DecodeLicenseData.
  replace (len (currentVersion :: PutUintLE 4 n ++ wire.front p ++ tail)
           <? 5) with false
    by (symmetry; unfold len; cbn [PutUintLE app List.length];
        apply Z.ltb_ge; lia).
  rewrite (decodeBody_front p n Hfields Hentries Htail).
  unfold bind, ret. now destruct (readStringSlice tail) as [[]|].
Qed.

Lemma layout_front (p : LicenseData) :
  wire.layout p
  = currentVersion
    :: PutUintLE 4 (uint32 (len (wire.body p)))
       ++ wire.front p ++ wire.slice (CustomIDs (HardwareIDs p)).
Proof. unfold wire.layout. now rewrite body_front at 2. Qed.

Lemma fits_CustomIDs (p : LicenseData) :
  fieldsFit p = true ->
  entriesFit p = true ->
  fits16 (len (CustomIDs (HardwareIDs p))) = true
  /\ entriesFitIn (CustomIDs (HardwareIDs p)) = true.
Proof.
  unfold fieldsFit, entriesFit. intros Hf He. split_andb. now split.
Qed.

(** The payload [DecodeLicenseData] rebuilds from the layout of [p]. *)
Lemma DecodeLicenseData_layout (p : LicenseData) :
  fieldsFit p = true ->
  entriesFit p = true ->
  endsNonEmpty (CustomIDs (HardwareIDs p)) = true ->
  DecodeLicenseData (wire.layout p)
  = Ok (props.decodedAs p (CustomIDs (HardwareIDs p))).
Proof.
  intros Hfields Hentries Hlast.
  destruct (fits_CustomIDs p Hfields Hentries) as [Hcount Hcustom].
  rewrite layout_front.
  rewrite DecodeLicenseData_front
    by (assumption || apply slice_nonempty).
  rewrite <- (app_nil_r (wire.slice (CustomIDs (HardwareIDs p)))).
  rewrite readStringSlice_layout by (assumption || now right).
  reflexivity.
Qed.

(** When the last custom ID is the empty string the encoding ends with its
    length field; the reader is at the end of the input when [readString]
    calls [Read], and [Read] returns [io.EOF]. *)
Lemma DecodeLicenseData_trailing_empty_string (p : LicenseData)
    (l : list string) :
  fieldsFit p = true ->
  entriesFit p = true ->
  CustomIDs (HardwareIDs p) = l ++ [""] ->
  DecodeLicenseData (wire.layout p) = Err EOF.
Proof.
  intros Hfields Hentries Hcustom.
  destruct (fits_CustomIDs p Hfields Hentries) as [Hcount Hfit].
  rewrite layout_front.
  rewrite DecodeLicenseData_front
    by (assumption || apply slice_nonempty).
  rewrite Hcustom in *.
  unfold readStringSlice, wire.slice.
  rewrite bind_Ok with (1 := binary_Read_uint16_PutUintLE _ _).
  assert (H0 : 0 <= len (l ++ [""])) by (unfold len; lia).
  rewrite !(uint16_fits H0 Hcount).
  unfold len. rewrite Nat2Z.id.
  rewrite readStrings_last_empty; [reflexivity|].
  unfold entriesFitIn in *. rewrite forallb_app in Hfit.
  now apply andb_prop in Hfit.
Qed.

(** Among the payloads whose strings and lists all fit their fields, the
    ones that round-trip are those whose custom ID list is empty or ends
    with a non-empty entry. *)
Lemma roundTrips_iff (p : LicenseData) :
  fieldsFit p = true ->
  entriesFit p = true ->
  props.roundTrips p <-> endsNonEmpty (CustomIDs (HardwareIDs p)) = true.
Proof.
  intros Hfields Hentries. split.
  - intros (bytes & q & Henc & Hdec & _).
    destruct (endsNonEmpty (CustomIDs (HardwareIDs p))) eqn:Hlast;
      [reflexivity|].
    apply endsNonEmpty_false in Hlast as [l Hl].
    rewrite EncodeLicenseData_layout in Henc. injection Henc as <-.
    rewrite (DecodeLicenseData_trailing_empty_string p l Hfields Hentries Hl)
      in Hdec.
    discriminate.
  - intros Hlast.
    exists (wire.layout p), (props.decodedAs p (CustomIDs (HardwareIDs p))).
    split; [apply EncodeLicenseData_layout|].
    split; [now apply DecodeLicenseData_layout|].
    destruct p as [? ? ? ? ? ? ? []]. clear.
    unfold equalAtSeconds, props.decodedAs.
    cbn [ID CustomerID ProductID SerialNumber IssueDate ExpiryDate Features
         HardwareIDs MACAddresses DiskIDs HostNames CustomIDs].
    rewrite !Unix_time_Unix. unfold Unix. rewrite !int64_idem.
    repeat split; reflexivity.
Qed.

(** C1, as amended.  For every payload whose four identifiers are at most
    65535 bytes, whose five lists have at most 65535 entries, each of at
    most 65535 bytes, and whose custom ID list is empty or ends with a
    non-empty entry, [EncodeLicenseData] succeeds and [DecodeLicenseData]
    of its result is a payload equal to the original, the two dates compared
    by their Unix seconds. *)
Theorem DecodeLicenseData_EncodeLicenseData (p : LicenseData) :
  fieldsFit p = true ->
  entriesFit p = true ->
  endsNonEmpty (CustomIDs (HardwareIDs p)) = true ->
  props.roundTrips p.
Proof.
  intros Hfields Hentries Hlast. now apply roundTrips_iff.
Qed.

(** The scenario payload of the specification round-trips. *)
Lemma DecodeLicenseData_EncodeLicenseData_L1 : props.roundTrips samples.L1.
Proof.
  apply DecodeLicenseData_EncodeLicenseData; reflexivity.
Defined.

(** C1, as stated, fails: a payload whose identifiers and counts all fit,
    with one feature of 65536 bytes, does not round-trip.  The length field
    of the feature is written as 0; the decoder reads an empty feature and
    takes the zero bytes that follow for the four empty hardware lists. *)
Lemma roundtrip_fails_for_long_entry :
  fieldsFit samples.longFeature = true
  /\ ~ props.roundTrips samples.longFeature.
Proof.
  split; [vm_compute; reflexivity|].
  intros (bytes & q & Henc & Hdec & Heq).
  rewrite EncodeLicenseData_layout in Henc. injection Henc as <-.
  assert (Hq : match DecodeLicenseData (wire.layout samples.longFeature) with
               | Ok q' => Features q'
               | Err _ => []
               end = [""]) by (vm_compute; reflexivity).
  rewrite Hdec in Hq.
  destruct Heq as (_ & _ & _ & _ & _ & _ & Hf & _).
  rewrite Hq in Hf.
  apply (f_equal (fun l => match l with
                           | s :: _ => String.eqb s ""
                           | [] => false
                           end)) in Hf.
  vm_compute in Hf. discriminate.
Qed.

(** The payload with custom IDs ["hw-1"] and [""] is encoded, and its
    encoding is not decoded. *)
Lemma DecodeLicenseData_trailing_empty_string_sample :
  EncodeLicenseData samples.customEmpty
  = Ok (wire.layout samples.customEmpty)
  /\ DecodeLicenseData (wire.layout samples.customEmpty) = Err EOF.
Proof.
  split; [apply EncodeLicenseData_layout|].
  now apply (DecodeLicenseData_trailing_empty_string
               samples.customEmpty ["hw-1"]).
Qed.

(** C4, as amended.  [EncodeLicenseData] never rejects a payload: for every
    payload it returns the wire layout and no error.  In that layout a
    string is its length modulo 65536 followed by all of its bytes, and a
    list is its count modulo 65536 followed by all of its entries. *)
Theorem EncodeLicenseData_never_rejects (d : LicenseData) :
  EncodeLicenseData d = Ok (wire.layout d)
  /\ (forall s : string,
        wire.str s
        = PutUintLE 2 (strlen s mod 2 ^ 16) ++ list_byte_of_string s)
  /\ (forall l : list string,
        wire.slice l
        = PutUintLE 2 (len l mod 2 ^ 16) ++ List.concat (map wire.str l)).
Proof.
  split; [apply EncodeLicenseData_layout|]. split; reflexivity.
Qed.

(** C4, as stated, fails: a payload whose identifier has 65536 bytes is
    encoded without error; its length field holds 0 and all its bytes are
    written after it. *)
Lemma EncodeLicenseData_accepts_long_ID :
  fieldsFit samples.longID = false
  /\ exists bytes,
       EncodeLicenseData samples.longID = Ok bytes
       /\ firstn 2 (skipn 5 bytes) = [x00; x00]
       /\ len bytes = 65588.
Proof.
  split; [vm_compute; reflexivity|].
  eexists. split; [apply EncodeLicenseData_layout|].
  split; vm_compute; reflexivity.
Qed.

(** C5 fails on the code.  Take a payload whose strings and lists all fit
    their fields and whose last custom ID has at least two bytes, and cut
    off the end of its encoding some, not all, of the bytes of that custom
    ID.  [DecodeLicenseData] returns no error: [Read] copies the bytes that
    are left and reports none missing, and the custom ID becomes those
    bytes followed by zero bytes. *)
Theorem DecodeLicenseData_accepts_truncated (p : LicenseData)
    (l : list string) (s : string) (kept cut : list byte) :
  fieldsFit p = true ->
  entriesFit p = true ->
  CustomIDs (HardwareIDs p) = l ++ [s] ->
  list_byte_of_string s = kept ++ cut ->
  kept <> [] ->
  cut <> [] ->
  exists bytes,
    EncodeLicenseData p = Ok bytes
    /\ (1 <= List.length cut < List.length bytes)%nat
    /\ DecodeLicenseData
         (firstn (List.length bytes - List.length cut) bytes)
       = Ok (props.decodedAs p
               (l ++ [string_of_list_byte
                        (kept ++ repeat x00 (List.length cut))])).
Proof.
  intros Hfields Hentries Hcustom Hs Hkept Hcut.
  destruct (fits_CustomIDs p Hfields Hentries) as [Hcount Hfit].
  rewrite Hcustom in Hcount, Hfit.
  unfold entriesFitIn in Hfit. rewrite forallb_app in Hfit.
  apply andb_prop in Hfit as [Hl Hfits]. cbn [forallb] in Hfits.
  rewrite andb_true_r in Hfits.
  exists (wire.layout p). split; [apply EncodeLicenseData_layout|].
  assert (Hlayout :
    wire.layout p
    = (currentVersion
       :: PutUintLE 4 (uint32 (len (wire.body p)))
          ++ wire.front p
          ++ PutUintLE 2 (uint16 (len (l ++ [s])))
          ++ wire.strs l ++ PutUintLE 2 (uint16 (strlen s)) ++ kept)
      ++ cut).
  { rewrite layout_front, Hcustom. unfold wire.slice.
    rewrite strs_app. unfold wire.strs at 2.
    cbn [map List.concat]. unfold wire.str. fold (strlen s).
    rewrite Hs, app_nil_r. cbn [app].
    repeat rewrite <- app_assoc. reflexivity. }
  rewrite Hlayout. split.
  - rewrite length_app. cbn [List.length].
    destruct cut; [congruence | cbn [List.length]; lia].
  - rewrite firstn_app_cut.
    rewrite DecodeLicenseData_front
      by (assumption || (cbn [PutUintLE app]; discriminate)).
    unfold readStringSlice.
    rewrite bind_Ok with (1 := binary_Read_uint16_PutUintLE _ _).
    assert (H0 : 0 <= len (l ++ [s])) by (unfold len; lia).
    rewrite !(uint16_fits H0 Hcount).
    unfold len. rewrite Nat2Z.id.
    now rewrite (readStrings_truncated l s cut Hl Hfits Hs Hkept).
Qed.

(** The encoding of the payload whose only custom ID is ["ab"], with its
    last byte cut off, is decoded to the payload whose custom ID is the
    byte ["a"] followed by a zero byte. *)
Lemma DecodeLicenseData_accepts_truncated_ab :
  exists bytes,
    EncodeLicenseData samples.customAB = Ok bytes
    /\ (1 <= 1 < List.length bytes)%nat
    /\ DecodeLicenseData (firstn (List.length bytes - 1) bytes)
       = Ok samples.customA0.
Proof.
  apply (@DecodeLicenseData_accepts_truncated
           samples.customAB [] "ab" ["a"%byte] ["b"%byte]);
    first [reflexivity | discriminate].
Defined.

Lemma decodeBody_header (v a b c e a' b' c' e' : byte) (r : list byte) :
  decodeBody (v :: a :: b :: c :: e :: r)
  = decodeBody (v :: a' :: b' :: c' :: e' :: r).
Proof. reflexivity. Qed.

(** C10.  [DecodeLicenseData] does not look at the declared body length:
    two inputs of the same length that agree at every offset other than 1
    to 4 are decoded alike, both to the same error or both to the same
    payload. *)
Theorem DecodeLicenseData_ignores_body_length (d1 d2 : list byte) :
  props.agreeOffBodyLength d1 d2 ->
  DecodeLicenseData d1 = DecodeLicenseData d2.
Proof.
  intros [Hlen Hnth]. unfold DecodeLicenseData, len. rewrite Hlen.
  destruct (Z.ltb_spec (Z.of_nat (List.length d2)) 5) as [|Hge];
    [reflexivity|].
  destruct d1 as [|v1 [|a1 [|b1 [|c1 [|e1 r1]]]]];
    try (cbn [List.length] in Hlen; lia).
  destruct d2 as [|v2 [|a2 [|b2 [|c2 [|e2 r2]]]]];
    try (cbn [List.length] in Hlen; lia).
  assert (Hv : v1 = v2).
  { specialize (Hnth 0%nat). cbn in Hnth.
    assert (Some v1 = Some v2) by (apply Hnth; lia). congruence. }
  assert (Hr : r1 = r2).
  { apply nth_error_ext. intros n.
    apply (Hnth (S (S (S (S (S n)))))). lia. }
  subst.
  now rewrite (decodeBody_header v2 a1 b1 c1 e1 a2 b2 c2 e2 r2).
Qed.

(** Two encodings of the scenario payload, the second with its body length
    overwritten, are decoded alike. *)
Lemma DecodeLicenseData_ignores_body_length_L1 :
  DecodeLicenseData (wire.layout samples.L1)
  = DecodeLicenseData (PutUint32_at_1 (wire.layout samples.L1) 4294967295).
Proof.
  apply DecodeLicenseData_ignores_body_length.
  split; [reflexivity|].
  intros i Hi.
  do 5 (destruct i as [|i]; [try reflexivity; lia|]).
  reflexivity.
Defined.

End Codec.

(** ** Hardware binding *)

Section Hardware.

Import licverify.

Lemma contains_In (slice : list string) (item : string) :
  contains slice item = true <-> In item slice.
Proof.
  induction slice as [|s slice IH]; cbn [contains In].
  - split; [discriminate | contradiction].
  - destruct (String.eqb_spec s item) as [->|Hne].
    + split; auto.
    + rewrite IH. split; [auto | intros [?|?]; [contradiction | assumption]].
Qed.

Lemma containsAny_In (slice1 slice2 : list string) :
  containsAny slice1 slice2 = true
  <-> exists s, In s slice1 /\ In s slice2.
Proof.
  induction slice1 as [|s1 slice1 IH]; cbn [containsAny In].
  - split; [discriminate | intros (s & [] & _)].
  - destruct (existsb (fun s2 => String.eqb s1 s2) slice2) eqn:Hex.
    + split; [intros _ | reflexivity].
      apply existsb_exists in Hex as (s2 & Hin & Heq).
      apply String.eqb_eq in Heq. subst s2. exists s1. auto.
    + rewrite IH. split.
      * intros (s & H1 & H2). exists s. auto.
      * intros (s & [->|H1] & H2); [|exists s; auto].
        assert (Hex' : existsb (fun s2 => String.eqb s s2) slice2 = true).
        { apply existsb_exists. exists s. split; [assumption|].
          apply String.eqb_refl. }
        congruence.
Qed.

Lemma len_pos {A} (l : list A) : (0 <? len l) = true <-> l <> [].
Proof.
  destruct l as [|a l].
  - split; [discriminate | congruence].
  - split; [discriminate | reflexivity].
Qed.

Lemma len_nil {A} (l : list A) : l = [] -> (0 <? len l) = false.
Proof. now intros ->. Qed.

(** When [VerifyHardwareBinding] passes: the hardware was detected, and
    every dimension the license populates matches. *)
Lemma VerifyHardwareBinding_None_iff
    (res : result hardware.HardwareInfo) (license : License) :
  VerifyHardwareBinding res license = None
  <-> exists hwInfo,
        res = Ok hwInfo
        /\ (MACAddresses (HardwareIDs license) = []
            \/ exists s, In s (hardware.MACAddresses hwInfo)
                         /\ In s (MACAddresses (HardwareIDs license)))
        /\ (DiskIDs (HardwareIDs license) = []
            \/ exists s, In s (hardware.DiskIDs hwInfo)
                         /\ In s (DiskIDs (HardwareIDs license)))
        /\ (HostNames (HardwareIDs license) = []
            \/ In (hardware.Hostname hwInfo)
                 (HostNames (HardwareIDs license))).
Proof.
  unfold VerifyHardwareBinding.
  destruct res as [hwInfo|err].
  2: { split; [discriminate | intros (? & [=] & _)]. }
  set (macs := MACAddresses (HardwareIDs license)).
  set (disks := DiskIDs (HardwareIDs license)).
  set (hosts := HostNames (HardwareIDs license)).
  pose proof (len_pos macs) as Pm. pose proof (len_pos disks) as Pd.
  pose proof (len_pos hosts) as Ph.
  pose proof (containsAny_In (hardware.MACAddresses hwInfo) macs) as Cm.
  pose proof (containsAny_In (hardware.DiskIDs hwInfo) disks) as Cd.
  pose proof (contains_In hosts (hardware.Hostname hwInfo)) as Ch.
  destruct (0 <? len macs) eqn:Em, (0 <? len disks) eqn:Ed,
    (0 <? len hosts) eqn:Eh,
    (containsAny (hardware.MACAddresses hwInfo) macs) eqn:Am,
    (containsAny (hardware.DiskIDs hwInfo) disks) eqn:Ad,
    (contains hosts (hardware.Hostname hwInfo)) eqn:Ah;
    cbn [andb negb];
    (split;
     [ first
         [ discriminate
         | intros _; exists hwInfo; split; [reflexivity|];
           repeat split;
           first [ right; first [apply Cm | apply Cd | apply Ch];
                   reflexivity
                 | left;
                   match goal with
                   | |- ?l = [] =>
                       destruct l; [reflexivity | discriminate]
                   end ] ]
     | first
         [ reflexivity
         | intros (hw & [= <-] & [Hm|Hm] & [Hd|Hd] & [Hh|Hh]);
           exfalso;
           repeat match goal with
                  | H : ?l = [] |- _ => rewrite (len_nil H) in *; clear H
                  end;
           try discriminate;
           repeat match goal with
                  | H : _ <-> _ |- _ => destruct H
                  end;
           intuition discriminate ] ]).
Qed.

(** C8.  For every license whose MAC list and hostname list are both
    non-empty, [VerifyHardwareBinding] passes only when the hardware was
    detected, some license MAC is among the detected MACs, and the detected
    hostname is in the license's hostname list. *)
Theorem VerifyHardwareBinding_conjunction
    (res : result hardware.HardwareInfo) (license : License) :
  MACAddresses (HardwareIDs license) <> [] ->
  HostNames (HardwareIDs license) <> [] ->
  VerifyHardwareBinding res license = None ->
  exists hwInfo,
    res = Ok hwInfo
    /\ (exists s, In s (MACAddresses (HardwareIDs license))
                  /\ In s (hardware.MACAddresses hwInfo))
    /\ In (hardware.Hostname hwInfo) (HostNames (HardwareIDs license)).
Proof.
  intros Hmac Hhost Hpass.
  apply VerifyHardwareBinding_None_iff in Hpass
    as (hwInfo & Hres & [Hm|(s & Hs1 & Hs2)] & _ & [Hh|Hh]);
    try contradiction.
  exists hwInfo. split; [assumption|]. split; [|assumption].
  exists s. auto.
Qed.

(** The license naming MAC [M1] and hostname [H1] does not pass on the
    machine with MAC [M1] and hostname [H2]. *)
Lemma VerifyHardwareBinding_M1_H1_on_M1_H2 :
  VerifyHardwareBinding (Ok fixtures.machine_M1_H2) fixtures.license_M1_H1
  <> None.
Proof.
  intros Hpass.
  apply VerifyHardwareBinding_conjunction in Hpass
    as (hwInfo & Hres & _ & Hhost); [| discriminate | discriminate].
  injection Hres as <-.
  destruct Hhost as [Heq|[]]. discriminate Heq.
Defined.

(** The same, for all names: with MAC [M1] present on the machine but its
    hostname [H2] different from the license's [H1], the check fails with
    the hostname error unless the disk check failed before it. *)
Lemma VerifyHardwareBinding_hostname_mismatch
    (hwInfo : hardware.HardwareInfo) (license : License) (M1 H1 : string) :
  MACAddresses (HardwareIDs license) = [M1] ->
  HostNames (HardwareIDs license) = [H1] ->
  In M1 (hardware.MACAddresses hwInfo) ->
  hardware.Hostname hwInfo <> H1 ->
  VerifyHardwareBinding (Ok hwInfo) license <> None.
Proof.
  intros Hm Hh Hin Hne Hpass.
  apply VerifyHardwareBinding_None_iff in Hpass
    as (hw & [= <-] & _ & _ & [Hnil|Hhost]).
  - congruence.
  - rewrite Hh in Hhost. destruct Hhost as [Heq|[]]. congruence.
Qed.

(** C9.  For a license that names no MAC address, no disk ID and no host
    name (its custom IDs are not read), [VerifyHardwareBinding] returns what the detection of the
    hardware decides: nothing when [GetHardwareInfo] has answered, and its
    error, wrapped, when it has not.  Detection comes first and its error
    is returned before the license is read, so an unbound license is
    refused on a machine whose hardware cannot be read. *)
Theorem VerifyHardwareBinding_unbound_follows_detection
    (GetHardwareInfo : result hardware.HardwareInfo) (license : License) :
  MACAddresses (HardwareIDs license) = [] ->
  DiskIDs (HardwareIDs license) = [] ->
  HostNames (HardwareIDs license) = [] ->
  VerifyHardwareBinding GetHardwareInfo license
  = match GetHardwareInfo with
    | Ok _ => None
    | Err err => Some (Errorf "failed to get hardware info: %v" err)
    end.
Proof.
  intros Hm Hd Hh. unfold VerifyHardwareBinding.
  destruct GetHardwareInfo as [hwInfo|err]; [|reflexivity].
  now rewrite Hm, Hd, Hh.
Qed.

(** The unbound license passes on a machine it has never seen, and is
    refused on the machine whose only interfaces are the loopback and a
    card that is down. *)
Lemma VerifyHardwareBinding_unbound_refused_when_isolated :
  VerifyHardwareBinding (Ok fixtures.machine_M2_H2) fixtures.license_unbound
  = None
  /\ VerifyHardwareBinding (detect.GetHardwareInfo machines.isolated)
       fixtures.license_unbound
     = Some
         (Errorf "failed to get hardware info: %v"
            (Errorf "failed to get MAC addresses: %v"
               (New "no valid MAC addresses found"))).
Proof.
  split.
  - exact (@VerifyHardwareBinding_unbound_follows_detection
             (Ok fixtures.machine_M2_H2) fixtures.license_unbound
             eq_refl eq_refl eq_refl).
  - exact (@VerifyHardwareBinding_unbound_follows_detection
             (detect.GetHardwareInfo machines.isolated)
             fixtures.license_unbound eq_refl eq_refl eq_refl).
Defined.

End Hardware.

(** When the hardware cannot be detected the check fails before the
    license is looked at, bound or not. *)
Lemma VerifyHardwareBinding_detection_error
    (err : error) (license : licverify.License) :
  licverify.VerifyHardwareBinding (Err err) license
  = Some (Errorf "failed to get hardware info: %v" err).
Proof. reflexivity. Qed.

(** ** Expiry *)

Section Expiry.

Import licverify.

Lemma After_irrefl (t : Time) : After t t = false.
Proof.
  unfold After. rewrite !Z.ltb_irrefl, Z.eqb_refl. reflexivity.
Qed.

(** A time at least one second later is after. *)
Lemma After_Add (t : Time) (d : Z) : Second <= d -> After (Add t d) t = true.
Proof.
  intros Hd. unfold After, Add, Second in *.
  assert (Hq : 1 <= Z.quot d 1000000000).
  { apply Z.quot_le_lower_bound; lia. }
  assert (Hr : 0 <= Z.rem d 1000000000 < 1000000000).
  { apply Z.rem_bound_pos; lia. }
  destruct (Z.leb_spec 1000000000 (nanosecond t + Z.rem d 1000000000)).
  - cbn [seconds nanosecond].
    apply orb_true_iff. left. apply Z.ltb_lt. lia.
  - destruct (Z.ltb_spec (nanosecond t + Z.rem d 1000000000) 0);
      cbn [seconds nanosecond].
    + apply orb_true_iff.
      destruct (Z.eq_dec (Z.quot d 1000000000) 1) as [E|E].
      * right. rewrite E. apply andb_true_iff. split.
        -- apply Z.eqb_eq. lia.
        -- apply Z.ltb_lt. lia.
      * left. apply Z.ltb_lt. lia.
    + apply orb_true_iff. left. apply Z.ltb_lt. lia.
Qed.

(** C7.  [VerifyExpiry] succeeds when the current time is the expiry date
    itself, and fails with the expiry error when the current time is the
    expiry date plus a duration of one second or more. *)
Theorem VerifyExpiry_boundary (license : License) (d : Z) :
  Second <= d ->
  VerifyExpiry (ExpiryDate license) license = None
  /\ VerifyExpiry (Add (ExpiryDate license) d) license
     = Some (ErrorfTime "license expired on %s" (ExpiryDate license)).
Proof.
  intros Hd. unfold VerifyExpiry.
  now rewrite After_irrefl, After_Add.
Qed.

(** The scenario license at its expiry date and one second later. *)
Lemma VerifyExpiry_boundary_L1 :
  VerifyExpiry (ExpiryDate fixtures.license_unbound) fixtures.license_unbound
  = None
  /\ VerifyExpiry fixtures.afterExpiry fixtures.license_unbound
     = Some (ErrorfTime "license expired on %s"
               (ExpiryDate fixtures.license_unbound)).
Proof.
  apply (VerifyExpiry_boundary fixtures.license_unbound (d := Second)).
  unfold Second. lia.
Defined.

End Expiry.

(** ** The order of the checks in [IsValid] *)

Section Validity.

Import licverify.

Variable sha256_Sum256 : list byte -> list byte.
Variable rsa_VerifyPKCS1v15 :
  PublicKey -> list byte -> list byte -> option error.
Variable json_Marshal : License -> result (list byte).

Local Abbreviation VerifySignature :=
  (VerifySignature sha256_Sum256 rsa_VerifyPKCS1v15 json_Marshal).
Local Abbreviation IsValid :=
  (IsValid sha256_Sum256 rsa_VerifyPKCS1v15 json_Marshal).

Lemma IsValid_None_iff (hw : result hardware.HardwareInfo) (now : Time)
    (license : License) (verifier : Verifier) :
  IsValid hw now license verifier = None
  <-> VerifySignature verifier license = None
      /\ VerifyHardwareBinding hw license = None
      /\ VerifyExpiry now license = None.
Proof.
  unfold licverify.IsValid.
  destruct (VerifySignature verifier license),
    (VerifyHardwareBinding hw license), (VerifyExpiry now license);
    split; try discriminate; try tauto; intros (? & ? & ?); discriminate.
Qed.

Lemma IsValid_signature_error (hw : result hardware.HardwareInfo)
    (now : Time) (license : License) (verifier : Verifier) (err : error) :
  VerifySignature verifier license = Some err ->
  IsValid hw now license verifier = Some err.
Proof. intros H. unfold licverify.IsValid. now rewrite H. Qed.

Lemma IsValid_hardware_error (hw : result hardware.HardwareInfo)
    (now : Time) (license : License) (verifier : Verifier) (err : error) :
  VerifySignature verifier license = None ->
  VerifyHardwareBinding hw license = Some err ->
  IsValid hw now license verifier = Some err.
Proof. intros Hs Hh. unfold licverify.IsValid. now rewrite Hs, Hh. Qed.

Lemma IsValid_expiry (hw : result hardware.HardwareInfo)
    (now : Time) (license : License) (verifier : Verifier) :
  VerifySignature verifier license = None ->
  VerifyHardwareBinding hw license = None ->
  IsValid hw now license verifier = VerifyExpiry now license.
Proof.
  intros Hs Hh. unfold licverify.IsValid. rewrite Hs, Hh.
  now destruct (VerifyExpiry now license).
Qed.

(** C2, as amended.  [IsValid] runs the checks in the order signature,
    hardware binding, expiry, and succeeds only if all three pass.  A
    signature failure is the verdict whatever the hardware and the clock
    are; for a license whose signature verifies, a hardware failure is the
    verdict whatever the clock is, so that a license both past its expiry
    and on the wrong hardware is reported as a hardware failure; the expiry
    check decides only when the two others passed. *)
Theorem IsValid_order (hw : result hardware.HardwareInfo) (now : Time)
    (license : License) (verifier : Verifier) :
  (IsValid hw now license verifier = None
   <-> VerifySignature verifier license = None
       /\ VerifyHardwareBinding hw license = None
       /\ VerifyExpiry now license = None)
  /\ (forall err,
        VerifySignature verifier license = Some err ->
        forall hw' now', IsValid hw' now' license verifier = Some err)
  /\ (forall err,
        VerifySignature verifier license = None ->
        VerifyHardwareBinding hw license = Some err ->
        forall now', IsValid hw now' license verifier = Some err)
  /\ (VerifySignature verifier license = None ->
      VerifyHardwareBinding hw license = None ->
      IsValid hw now license verifier = VerifyExpiry now license).
Proof.
  split; [apply IsValid_None_iff|].
  split; [intros err H hw' now'; now apply IsValid_signature_error|].
  split; [intros err Hs Hh now'; now apply IsValid_hardware_error|].
  apply IsValid_expiry.
Qed.

End Validity.

(** The license naming [M1] and [H1], with a signature that verifies, one
    second past its expiry on a machine without [M1]: the verdict of
    [IsValid] is the MAC address mismatch. *)
Lemma IsValid_order_expired_on_wrong_machine :
  licverify.IsValid fixtures.digest fixtures.verify fixtures.marshal
    (Ok fixtures.machine_M2_H2) fixtures.afterExpiry
    fixtures.license_M1_H1 fixtures.verifier2048
  = Some (New "license is not valid for this hardware (MAC address mismatch)").
Proof.
  apply (IsValid_order fixtures.digest fixtures.verify fixtures.marshal
           (Ok fixtures.machine_M2_H2) fixtures.afterExpiry
           fixtures.license_M1_H1 fixtures.verifier2048);
    reflexivity.
Defined.

(** C2, as stated, fails.  The license naming [M1] and [H1] is one second
    past its expiry and on a machine without [M1].  Whenever its signature
    verifies, the verdict of [IsValid] is the hardware failure, not the
    expiry failure; and there are library routines under which its
    signature verifies. *)
Lemma IsValid_reports_hardware_before_expiry :
  licverify.VerifyExpiry fixtures.afterExpiry fixtures.license_M1_H1
  = Some (ErrorfTime "license expired on %s"
            (licverify.ExpiryDate fixtures.license_M1_H1))
  /\ licverify.VerifyHardwareBinding (Ok fixtures.machine_M2_H2)
       fixtures.license_M1_H1
     = Some (New
         "license is not valid for this hardware (MAC address mismatch)")
  /\ (forall sha256_Sum256 rsa_VerifyPKCS1v15 json_Marshal verifier,
        licverify.VerifySignature sha256_Sum256 rsa_VerifyPKCS1v15
          json_Marshal verifier fixtures.license_M1_H1 = None ->
        licverify.IsValid sha256_Sum256 rsa_VerifyPKCS1v15 json_Marshal
          (Ok fixtures.machine_M2_H2) fixtures.afterExpiry
          fixtures.license_M1_H1 verifier
        = Some (New
            "license is not valid for this hardware (MAC address mismatch)"))
  /\ licverify.VerifySignature fixtures.digest fixtures.verify
       fixtures.marshal fixtures.verifier2048 fixtures.license_M1_H1 = None
  /\ licverify.IsValid fixtures.digest fixtures.verify fixtures.marshal
       (Ok fixtures.machine_M2_H2) fixtures.afterExpiry
       fixtures.license_M1_H1 fixtures.verifier2048
     <> licverify.VerifyExpiry fixtures.afterExpiry fixtures.license_M1_H1.
Proof.
  split; [reflexivity|]. split; [reflexivity|].
  split; [|split; [reflexivity | discriminate]].
  intros sha256_Sum256 rsa_VerifyPKCS1v15 json_Marshal verifier Hsig.
  unfold licverify.IsValid. now rewrite Hsig.
Qed.

(** ** Loading a license and verifying its signature *)

Section Signature.

Import licverify.

Variable sha256_Sum256 : list byte -> list byte.
Variable rsa_VerifyPKCS1v15 :
  PublicKey -> list byte -> list byte -> option error.
Variable json_Marshal : License -> result (list byte).
Variable json_Unmarshal : list byte -> result License.
Variable os_ReadFile : string -> result (list byte).

Local Abbreviation VerifySignature :=
  (VerifySignature sha256_Sum256 rsa_VerifyPKCS1v15 json_Marshal).
Local Abbreviation LoadLicense := (LoadLicense json_Unmarshal os_ReadFile).

Lemma EncodeLicense_layout (license : licformat.adapter.License) :
  licformat.adapter.EncodeLicense license
  = Ok (wire.layout (licformat.adapter.ToLicenseData license)).
Proof. apply EncodeLicenseData_layout. Qed.

(** The payload that is encoded again for the check is the payload of the
    license that was decoded. *)
Lemma ToLicenseData_of_loaded (imported : licformat.adapter.License)
    (signature : list byte) :
  licformat.adapter.ToLicenseData
    (toFormat (withoutSignature (ofFormat imported signature)))
  = licformat.adapter.ToLicenseData imported.
Proof. destruct imported as [? ? ? ? ? ? ? [] ?]. reflexivity. Qed.

Lemma split_at_256 (payload signature : list byte) :
  len signature = 256 ->
  (len (payload ++ signature) <? 256) = false
  /\ firstn (Z.to_nat (len (payload ++ signature) - 256))
       (payload ++ signature) = payload
  /\ skipn (Z.to_nat (len (payload ++ signature) - 256))
       (payload ++ signature) = signature.
Proof.
  unfold len. intros Hsig. rewrite length_app.
  replace (Z.to_nat
             (Z.of_nat (List.length payload + List.length signature) - 256))
    with (List.length payload) by lia.
  split; [apply Z.ltb_ge; lia|].
  rewrite firstn_app, skipn_app, Nat.sub_diag, firstn_all, skipn_all.
  cbn [firstn skipn]. now rewrite app_nil_r.
Qed.

(** A file made of bytes the binary decoder accepts and 256 more bytes is
    loaded as the decoded license with those 256 bytes as its signature. *)
Lemma LoadLicense_binary (v : Verifier) (filePath : string)
    (payload signature : list byte) (imported : licformat.adapter.License) :
  os_ReadFile filePath = Ok (payload ++ signature) ->
  len signature = 256 ->
  licformat.adapter.DecodeLicense payload = Ok imported ->
  LoadLicense v filePath = Ok (ofFormat imported signature).
Proof.
  intros Hfile Hsig Hdec. unfold licverify.LoadLicense. rewrite Hfile.
  destruct (split_at_256 payload signature Hsig) as (-> & -> & ->).
  now rewrite Hdec.
Qed.

(** What [VerifySignature] checks: the signature against the digest of the
    license encoded again, and, if that fails, against the digest of its
    JSON form. *)
Lemma VerifySignature_None_iff (v : Verifier) (license : License) :
  VerifySignature v license = None
  <-> rsa_VerifyPKCS1v15 (publicKey v)
        (sha256_Sum256
           (wire.layout
              (licformat.adapter.ToLicenseData
                 (toFormat (withoutSignature license)))))
        (Signature license) = None
      \/ exists jsonData,
           json_Marshal (withoutSignature license) = Ok jsonData
           /\ rsa_VerifyPKCS1v15 (publicKey v) (sha256_Sum256 jsonData)
                (Signature license) = None.
Proof.
  unfold licverify.VerifySignature. rewrite EncodeLicense_layout.
  destruct (rsa_VerifyPKCS1v15 (publicKey v) _ (Signature license))
    as [err|] eqn:Hbin.
  2: { split; auto. }
  destruct (json_Marshal (withoutSignature license)) as [jsonData|jsonErr].
  - destruct (rsa_VerifyPKCS1v15 (publicKey v) (sha256_Sum256 jsonData)
                (Signature license)) as [err'|] eqn:Hjson.
    + split; [discriminate|].
      intros [H|(j & [= <-] & H)]; congruence.
    + split; [|reflexivity]. intros _. right. eauto.
  - split; [discriminate|].
    intros [H|(j & H & _)]; discriminate.
Qed.

(** C3, as amended.  For every license file whose payload bytes the binary
    decoder accepts, [VerifySignature] checks the signature against the
    bytes obtained by encoding the decoded license again, and, when that
    check fails, against its JSON form; it does not see the loaded bytes.
    Two files whose payload bytes decode to the same license, followed by
    the same signature, are loaded as the same [License] and so get the same
    verdict. *)
Theorem VerifySignature_checks_reencoding (v : Verifier)
    (path1 path2 : string) (payload1 payload2 signature : list byte)
    (imported : licformat.adapter.License) :
  len signature = 256 ->
  os_ReadFile path1 = Ok (payload1 ++ signature) ->
  os_ReadFile path2 = Ok (payload2 ++ signature) ->
  licformat.adapter.DecodeLicense payload1 = Ok imported ->
  licformat.adapter.DecodeLicense payload2 = Ok imported ->
  exists license,
    LoadLicense v path1 = Ok license
    /\ LoadLicense v path2 = Ok license
    /\ (VerifySignature v license = None
        <-> rsa_VerifyPKCS1v15 (publicKey v)
              (sha256_Sum256
                 (wire.layout (licformat.adapter.ToLicenseData imported)))
              signature = None
            \/ exists jsonData,
                 json_Marshal (withoutSignature license) = Ok jsonData
                 /\ rsa_VerifyPKCS1v15 (publicKey v)
                      (sha256_Sum256 jsonData) signature = None).
Proof.
  intros Hsig Hfile1 Hfile2 Hdec1 Hdec2.
  exists (ofFormat imported signature).
  split; [now apply LoadLicense_binary with (payload := payload1)|].
  split; [now apply LoadLicense_binary with (payload := payload2)|].
  rewrite VerifySignature_None_iff, ToLicenseData_of_loaded.
  reflexivity.
Qed.

(** A file of at least 256 bytes is split 256 bytes before its end,
    whatever the key of the verifier is. *)
Lemma LoadLicense_Signature_length (v : Verifier) (filePath : string)
    (license : License) :
  LoadLicense v filePath = Ok license -> len (Signature license) = 256.
Proof.
  unfold licverify.LoadLicense.
  destruct (os_ReadFile filePath) as [data|err]; [|discriminate].
  destruct (Z.ltb_spec (len data) 256) as [|Hge]; [discriminate|].
  assert (Hlen : len (skipn (Z.to_nat (len data - 256)) data) = 256).
  { unfold len in *. rewrite length_skipn. lia. }
  destruct (licformat.adapter.DecodeLicense _) as [imported|err].
  - intros [= <-]. exact Hlen.
  - destruct (json_Unmarshal _) as [legacy|jsonErr]; [|discriminate].
    intros [= <-]. exact Hlen.
Qed.

End Signature.

(** The encoding of the scenario payload and the same bytes with another
    body length, each followed by the same signature, are loaded as one
    license and get one verdict. *)
Lemma VerifySignature_checks_reencoding_L1 :
  exists license,
    licverify.LoadLicense fixtures.unmarshal
      (fixtures.twoFiles
         "a.lic" (fixtures.payload_L1 ++ fixtures.signature2048)
         "b.lic" (fixtures.payload_L1_relabelled ++ fixtures.signature2048))
      fixtures.verifier2048 "a.lic" = Ok license
    /\ licverify.LoadLicense fixtures.unmarshal
         (fixtures.twoFiles
            "a.lic" (fixtures.payload_L1 ++ fixtures.signature2048)
            "b.lic"
            (fixtures.payload_L1_relabelled ++ fixtures.signature2048))
         fixtures.verifier2048 "b.lic" = Ok license
    /\ (licverify.VerifySignature fixtures.digest fixtures.verify
          fixtures.marshal fixtures.verifier2048 license = None
        <-> fixtures.verify (licverify.publicKey fixtures.verifier2048)
              (fixtures.digest
                 (wire.layout
                    (licformat.adapter.ToLicenseData fixtures.decoded_L1)))
              fixtures.signature2048 = None
            \/ exists jsonData,
                 fixtures.marshal (licverify.withoutSignature license)
                 = Ok jsonData
                 /\ fixtures.verify
                      (licverify.publicKey fixtures.verifier2048)
                      (fixtures.digest jsonData) fixtures.signature2048
                    = None).
Proof.
  apply (@VerifySignature_checks_reencoding
           fixtures.digest fixtures.verify fixtures.marshal
           fixtures.unmarshal
           (fixtures.twoFiles
              "a.lic" (fixtures.payload_L1 ++ fixtures.signature2048)
              "b.lic"
              (fixtures.payload_L1_relabelled ++ fixtures.signature2048))
           fixtures.verifier2048 "a.lic" "b.lic"
           fixtures.payload_L1 fixtures.payload_L1_relabelled
           fixtures.signature2048 fixtures.decoded_L1);
    reflexivity.
Defined.

(** C3, as stated, fails.  The payload bytes of the file are the scenario
    encoding with another body length; the binary decoder accepts them.
    Under a verification that accepts the digest of the scenario encoding
    and nothing else, the check against the loaded bytes fails, and
    [VerifySignature] passes all the same: it checks the bytes it rebuilds
    from the decoded license. *)
Lemma VerifySignature_not_against_loaded_bytes :
  fixtures.payload_L1_relabelled <> fixtures.payload_L1
  /\ is_ok (licformat.adapter.DecodeLicense fixtures.payload_L1_relabelled)
     = true
  /\ exists license,
       licverify.LoadLicense fixtures.unmarshal
         (fixtures.oneFile "license.lic"
            (fixtures.payload_L1_relabelled ++ fixtures.signature2048))
         fixtures.verifier2048 "license.lic" = Ok license
       /\ fixtures.verifyOnly fixtures.payload_L1
            (licverify.publicKey fixtures.verifier2048)
            (fixtures.digest fixtures.payload_L1_relabelled)
            fixtures.signature2048 = Some ErrVerification
       /\ licverify.VerifySignature fixtures.digest
            (fixtures.verifyOnly fixtures.payload_L1) fixtures.marshal
            fixtures.verifier2048 license = None.
Proof.
  split; [vm_compute; discriminate|].
  split; [vm_compute; reflexivity|].
  eexists. split; [vm_compute; reflexivity|].
  split; vm_compute; reflexivity.
Qed.

(** ** The length of the signature *)

Section Generator.

Import licverify.

Variable sha256_Sum256 : list byte -> list byte.
Variable rsa_SignPKCS1v15 : PrivateKey -> list byte -> result (list byte).
Variable json_Unmarshal : list byte -> result License.
Variable os_ReadFile : string -> result (list byte).

(** The file [GenerateLicense] returns is the encoded payload followed by
    what [rsa.SignPKCS1v15] returned for its digest. *)
Lemma GenerateLicense_file (now1 now2 : Time)
    (id customerID productID serialNumber : string) (expiryDuration : Z)
    (features : list string) (hardwareIDs : HardwareBinding)
    (privateKey : PrivateKey) (licenseFile : list byte) :
  licgen.GenerateLicense sha256_Sum256 rsa_SignPKCS1v15 now1 now2
    id customerID productID serialNumber expiryDuration features
    hardwareIDs privateKey = Ok licenseFile ->
  exists licenseData signature,
    licenseFile = licenseData ++ signature
    /\ rsa_SignPKCS1v15 privateKey (sha256_Sum256 licenseData)
       = Ok signature.
Proof.
  unfold licgen.GenerateLicense, licgen.SignData.
  rewrite EncodeLicense_layout.
  destruct (rsa_SignPKCS1v15 privateKey _) as [signature|err] eqn:Hsign;
    [|discriminate].
  intros Hfile.
  exists (wire.layout
            (licformat.adapter.ToLicenseData
               (toFormat
                  (mkLicense id customerID productID serialNumber now1
                     (Add now2 expiryDuration) features hardwareIDs [])))),
    signature.
  split; [congruence | exact Hsign].
Qed.

(** C6 fails on the code.  Let [rsa.SignPKCS1v15] return, as it does, a
    signature as long as the modulus of the key.  The file
    [GenerateLicense] returns ends with a signature of that length; the
    signature [LoadLicense] splits off that file has 256 bytes, whatever the
    key is. *)
Theorem LoadLicense_splits_256_bytes (v : Verifier) (filePath : string)
    (now1 now2 : Time) (id customerID productID serialNumber : string)
    (expiryDuration : Z) (features : list string)
    (hardwareIDs : HardwareBinding) (privateKey : PrivateKey)
    (licenseFile : list byte) (license : License) :
  (forall hashed signature,
      rsa_SignPKCS1v15 privateKey hashed = Ok signature ->
      len signature = Size (Public privateKey)) ->
  licgen.GenerateLicense sha256_Sum256 rsa_SignPKCS1v15 now1 now2
    id customerID productID serialNumber expiryDuration features
    hardwareIDs privateKey = Ok licenseFile ->
  os_ReadFile filePath = Ok licenseFile ->
  LoadLicense json_Unmarshal os_ReadFile v filePath = Ok license ->
  (exists licenseData signature,
      licenseFile = licenseData ++ signature
      /\ len signature = Size (Public privateKey))
  /\ len (Signature license) = 256.
Proof.
  intros Hsize Hgen Hfile Hload. split.
  - apply GenerateLicense_file in Hgen
      as (licenseData & signature & -> & Hsign).
    exists licenseData, signature. split; [reflexivity|].
    now apply Hsize in Hsign.
  - now apply LoadLicense_Signature_length in Hload.
Qed.

End Generator.

(** The stand-in signer keeps the contract of [rsa.SignPKCS1v15]. *)
Lemma sign_length (priv : PrivateKey) (hashed signature : list byte) :
  0 <= Size (Public priv) ->
  fixtures.sign priv hashed = Ok signature ->
  len signature = Size (Public priv).
Proof.
  intros Hsize Hsign. unfold fixtures.sign in Hsign.
  injection Hsign as Hsign. rewrite <- Hsign. unfold len.
  rewrite repeat_length. now apply Z2Nat.id.
Qed.

(** Under the key with a modulus of 4096 bits the signature written has 512
    bytes and the signature read back has 256. *)
Lemma LoadLicense_splits_256_bytes_key4096 :
  ((exists licenseData signature,
       fixtures.file4096 = licenseData ++ signature
       /\ len signature = Size (Public fixtures.key4096))
   /\ len (licverify.Signature fixtures.loaded4096) = 256)
  /\ Size (Public fixtures.key4096) = 512.
Proof.
  split; [|reflexivity].
  apply (@LoadLicense_splits_256_bytes
           fixtures.digest fixtures.sign fixtures.unmarshal
           (fixtures.oneFile "license.lic" fixtures.file4096)
           fixtures.verifier4096 "license.lic" samples.t0 samples.t0
           "L1" "C1" "P1" "S1" samples.year ["basic"]
           (licverify.mkHardwareBinding [] [] [] []) fixtures.key4096).
  - intros hashed signature. apply sign_length. vm_compute. discriminate.
  - vm_compute. reflexivity.
  - reflexivity.
  - vm_compute. reflexivity.
Defined.

(** ** More on the codec: what the decoder needs, what it leaves unread,
    and the bytes the encoder writes *)

Section CodecEdges.

Import licformat.
Import widths.

Lemma bind_inv {A B} (m : Dec A) (k : A -> Dec B) (r : Reader)
    (x : B * Reader) :
  bind m k r = Ok x -> exists a r1, m r = Ok (a, r1) /\ k a r1 = Ok x.
Proof.
  unfold bind. destruct (m r) as [[a r1]|e]; [|discriminate].
  intros H. now exists a, r1.
Qed.

Ltac invert_binds :=
  repeat match goal with
         | H : bind _ _ _ = Ok _ |- _ =>
             let a := fresh "a" in
             let r := fresh "r" in
             let Hm := fresh "Hm" in
             apply bind_inv in H; destruct H as (a & r & Hm & H);
             cbv beta in H
         end.

Lemma io_ReadFull_inv (n : nat) (r r' : Reader) (a : list byte) :
  io_ReadFull n r = Ok (a, r') ->
  r = a ++ r' /\ List.length a = n.
Proof.
  unfold io_ReadFull. destruct (Nat.leb_spec n (List.length r)) as [Hle|].
  - intros [= <- <-]. split; [now rewrite firstn_skipn|].
    now apply firstn_length_le.
  - destruct r; discriminate.
Qed.

Lemma io_ReadFull_length (n : nat) (r r' : Reader) (a : list byte) :
  io_ReadFull n r = Ok (a, r') ->
  List.length r = (n + List.length r')%nat.
Proof.
  intros H. apply io_ReadFull_inv in H as [-> <-]. apply length_app.
Qed.

Lemma binary_Read_uint16_length (r r' : Reader) (v : Z) :
  binary_Read_uint16 r = Ok (v, r') ->
  List.length r = (2 + List.length r')%nat.
Proof.
  unfold binary_Read_uint16. intros H. invert_binds.
  injection H as _ <-. now apply io_ReadFull_length in Hm.
Qed.

Lemma binary_Read_int64_length (r r' : Reader) (v : Z) :
  binary_Read_int64 r = Ok (v, r') ->
  List.length r = (8 + List.length r')%nat.
Proof.
  unfold binary_Read_int64. intros H. invert_binds.
  injection H as _ <-. now apply io_ReadFull_length in Hm.
Qed.

Lemma Reader_Read_length (n : nat) (r r' : Reader) (a : list byte) :
  Reader_Read n r = Ok (a, r') -> (List.length r' <= List.length r)%nat.
Proof.
  unfold Reader_Read. destruct r as [|b r]; [discriminate|].
  intros [= _ <-]. rewrite length_skipn. lia.
Qed.

Lemma readString_length (r r' : Reader) (s : string) :
  readString r = Ok (s, r') -> (2 + List.length r' <= List.length r)%nat.
Proof.
  unfold readString. intros H. invert_binds. injection H as _ <-.
  apply binary_Read_uint16_length in Hm.
  apply Reader_Read_length in Hm0. lia.
Qed.

Lemma readStrings_length (n : nat) (r r' : Reader) (l : list string) :
  readStrings n r = Ok (l, r') -> (List.length r' <= List.length r)%nat.
Proof.
  revert r l. induction n as [|n IH]; intros r l; cbn [readStrings].
  - intros [= _ <-]. lia.
  - intros H. invert_binds. injection H as _ <-.
    apply readString_length in Hm. apply IH in Hm0. lia.
Qed.

Lemma readStringSlice_length (r r' : Reader) (l : list string) :
  readStringSlice r = Ok (l, r') ->
  (2 + List.length r' <= List.length r)%nat.
Proof.
  unfold readStringSlice. intros H. invert_binds.
  apply binary_Read_uint16_length in Hm.
  apply readStrings_length in H. lia.
Qed.

Lemma decodeBody_length (r r' : Reader) (q : LicenseData) :
  decodeBody r = Ok (q, r') ->
  (39 + List.length r' <= List.length r)%nat
  /\ nth_error r 0 = Some currentVersion.
Proof.
  unfold decodeBody. intros H.
  apply bind_inv in H as (h & r1 & Hh & H). cbv beta in H.
  unfold binary_Read_header in Hh.
  apply bind_inv in Hh as (bs & r0 & Hbs & Hh). injection Hh as <- <-.
  apply io_ReadFull_inv in Hbs as [-> Hlen].
  cbn [Version] in H.
  destruct (Byte.eqb (hd x00 bs) currentVersion) eqn:Hv;
    cbn [negb] in H; [|discriminate].
  apply Byte.byte_dec_bl in Hv.
  invert_binds. injection H as _ <-.
  repeat match goal with
         | H : readString _ = Ok _ |- _ => apply readString_length in H
         | H : readStringSlice _ = Ok _ |- _ =>
             apply readStringSlice_length in H
         | H : binary_Read_int64 _ = Ok _ |- _ =>
             apply binary_Read_int64_length in H
         end.
  split; [rewrite length_app; lia|].
  destruct bs as [|b bs]; [discriminate|]. cbn in *. now subst.
Qed.

(** X1.  An input [DecodeLicenseData] accepts has at least 39 bytes, the
    five of the header, the four length fields, the two dates and the five
    counts, and its first byte is the version, 1. *)
Theorem DecodeLicenseData_needs_39_bytes (data : list byte)
    (q : LicenseData) :
  DecodeLicenseData data = Ok q ->
  39 <= len data /\ nth_error data 0 = Some x01.
Proof.
  unfold DecodeLicenseData.
  destruct (len data <? 5); [discriminate|].
  destruct (decodeBody data) as [[q' r']|e] eqn:Hbody; [|discriminate].
  intros _. apply decodeBody_length in Hbody as [Hlen Hv].
  split; [unfold len; lia | exact Hv].
Qed.

(** The encoding of the scenario payload has its 39 bytes and more. *)
Lemma DecodeLicenseData_needs_39_bytes_L1 :
  39 <= len (wire.layout samples.L1)
  /\ nth_error (wire.layout samples.L1) 0 = Some x01.
Proof.
  apply (@DecodeLicenseData_needs_39_bytes (wire.layout samples.L1)
           (props.decodedAs samples.L1 [])).
  reflexivity.
Defined.

(** X2.  [DecodeLicenseData] does not check that it has read all of its
    input: the encoding of a payload whose strings and lists fit their
    fields, followed by any bytes, is decoded to that payload. *)
Theorem DecodeLicenseData_ignores_trailing_bytes (p : LicenseData)
    (extra : list byte) :
  fieldsFit p = true ->
  entriesFit p = true ->
  extra <> [] ->
  DecodeLicenseData (wire.layout p ++ extra)
  = Ok (props.decodedAs p (CustomIDs (HardwareIDs p))).
Proof.
  intros Hfields Hentries Hextra.
  destruct (fits_CustomIDs p Hfields Hentries) as [Hcount Hcustom].
  rewrite layout_front.
  change ((currentVersion
           :: PutUintLE 4 (uint32 (len (wire.body p)))
              ++ wire.front p ++ wire.slice (CustomIDs (HardwareIDs p)))
          ++ extra)
    with (currentVersion
          :: (PutUintLE 4 (uint32 (len (wire.body p)))
              ++ wire.front p ++ wire.slice (CustomIDs (HardwareIDs p)))
             ++ extra).
  repeat rewrite <- app_assoc.
  rewrite DecodeLicenseData_front
    by (assumption || apply slice_app_nonempty).
  rewrite readStringSlice_layout by (assumption || now left).
  reflexivity.
Qed.

(** The scenario payload, encoded and followed by a signature. *)
Lemma DecodeLicenseData_ignores_trailing_bytes_L1 :
  DecodeLicenseData (wire.layout samples.L1 ++ fixtures.signature2048)
  = Ok (props.decodedAs samples.L1 []).
Proof.
  apply (@DecodeLicenseData_ignores_trailing_bytes
           samples.L1 fixtures.signature2048);
    first [reflexivity | discriminate].
Defined.

Lemma layout_decodedAs (p : LicenseData) :
  wire.layout (props.decodedAs p (CustomIDs (HardwareIDs p)))
  = wire.layout p.
Proof.
  assert (Hi : forall t, wire.i64 (time_Unix (Unix t)) = wire.i64 t).
  { intros t. unfold wire.i64. rewrite Unix_time_Unix.
    unfold Unix. now rewrite int64_idem. }
  unfold wire.layout, wire.body, props.decodedAs.
  cbn [ID CustomerID ProductID SerialNumber IssueDate ExpiryDate Features
       HardwareIDs].
  rewrite !Hi. unfold wire.hardware.
  cbn [MACAddresses DiskIDs HostNames CustomIDs]. reflexivity.
Qed.

(** X3.  Two payloads whose strings and lists fit their fields and that
    [EncodeLicenseData] encodes to the same bytes are equal, their dates
    compared by their Unix seconds. *)
Theorem EncodeLicenseData_injective (p q : LicenseData) :
  fieldsFit p = true -> entriesFit p = true ->
  fieldsFit q = true -> entriesFit q = true ->
  EncodeLicenseData p = EncodeLicenseData q ->
  equalAtSeconds p q.
Proof.
  intros Hfp Hep Hfq Heq Henc.
  rewrite !EncodeLicenseData_layout in Henc.
  assert (Hlayout : wire.layout p = wire.layout q) by congruence.
  assert (Hp : DecodeLicenseData (wire.layout p ++ [x00])
               = Ok (props.decodedAs p (CustomIDs (HardwareIDs p)))).
  { rewrite layout_front. cbn [app]. repeat rewrite <- app_assoc.
    destruct (fits_CustomIDs p Hfp Hep) as [Hc Hcu].
    rewrite DecodeLicenseData_front
      by (assumption || apply slice_app_nonempty).
    now rewrite readStringSlice_layout by (assumption || now left). }
  assert (Hq : DecodeLicenseData (wire.layout q ++ [x00])
               = Ok (props.decodedAs q (CustomIDs (HardwareIDs q)))).
  { rewrite layout_front. cbn [app]. repeat rewrite <- app_assoc.
    destruct (fits_CustomIDs q Hfq Heq) as [Hc Hcu].
    rewrite DecodeLicenseData_front
      by (assumption || apply slice_app_nonempty).
    now rewrite readStringSlice_layout by (assumption || now left). }
  rewrite Hlayout, Hq in Hp.
  assert (Hd : props.decodedAs q (CustomIDs (HardwareIDs q))
               = props.decodedAs p (CustomIDs (HardwareIDs p)))
    by congruence.
  pose proof (f_equal (fun d => Unix (IssueDate d)) Hd) as Hissue.
  pose proof (f_equal (fun d => Unix (ExpiryDate d)) Hd) as Hexpiry.
  cbn [props.decodedAs IssueDate ExpiryDate] in Hissue, Hexpiry.
  rewrite !Unix_time_Unix, !int64_Unix in Hissue, Hexpiry.
  unfold props.decodedAs in Hd.
  injection Hd as H1 H2 H3 H4 _ _ H7 H8 H9 H10 H11.
  unfold equalAtSeconds. repeat split; try assumption.
  destruct (HardwareIDs p), (HardwareIDs q). cbn in *. congruence.
Qed.

(** The scenario payload and the same payload issued 999 nanoseconds
    later have the same encoding. *)
Lemma EncodeLicenseData_injective_L1 :
  equalAtSeconds samples.L1
    (mkLicenseData "L1" "C1" "P1" "S1" (mkTime 1704067200 999)
       (Add samples.t0 samples.year) ["basic"] samples.unbound).
Proof.
  apply EncodeLicenseData_injective; reflexivity.
Defined.

(** X4.  Encoding what was decoded gives the bytes that were decoded: for
    a payload whose strings and lists fit their fields and whose custom ID
    list is empty or ends with a non-empty entry, the payload
    [DecodeLicenseData] returns for its encoding is encoded to the same
    bytes. *)
Theorem EncodeLicenseData_of_decoded (p q : LicenseData)
    (bytes : list byte) :
  fieldsFit p = true ->
  entriesFit p = true ->
  endsNonEmpty (CustomIDs (HardwareIDs p)) = true ->
  EncodeLicenseData p = Ok bytes ->
  DecodeLicenseData bytes = Ok q ->
  EncodeLicenseData q = Ok bytes.
Proof.
  intros Hfields Hentries Hlast Henc Hdec.
  rewrite EncodeLicenseData_layout in Henc. injection Henc as <-.
  rewrite DecodeLicenseData_layout in Hdec by assumption.
  injection Hdec as <-.
  now rewrite EncodeLicenseData_layout, layout_decodedAs.
Qed.

(** The scenario payload, decoded and encoded again. *)
Lemma EncodeLicenseData_of_decoded_L1 :
  EncodeLicenseData (props.decodedAs samples.L1 [])
  = Ok (wire.layout samples.L1).
Proof.
  apply (@EncodeLicenseData_of_decoded samples.L1); reflexivity.
Defined.

Lemma len_app {A} (l1 l2 : list A) : len (l1 ++ l2) = len l1 + len l2.
Proof. unfold len. rewrite length_app. lia. Qed.

Lemma len_str (s : string) : len (wire.str s) = 2 + strlen s.
Proof.
  unfold wire.str. rewrite len_app. unfold len at 1.
  rewrite length_PutUintLE. reflexivity.
Qed.

Lemma len_strs (l : list string) : len (wire.strs l) = sizes.entriesSize l.
Proof.
  induction l as [|s l IH]; [reflexivity|].
  unfold wire.strs. cbn [map List.concat sizes.entriesSize fold_right].
  fold (wire.strs l). fold (sizes.entriesSize l).
  rewrite len_app, len_str, IH. lia.
Qed.

Lemma len_slice (l : list string) :
  len (wire.slice l) = 2 + sizes.entriesSize l.
Proof.
  unfold wire.slice. rewrite len_app, len_strs. unfold len at 1.
  rewrite length_PutUintLE. reflexivity.
Qed.

Lemma len_body (d : LicenseData) : len (wire.body d) = sizes.encodedSize d - 5.
Proof.
  unfold wire.body, wire.hardware, wire.i64, sizes.encodedSize.
  rewrite !len_app, !len_str, !len_slice. unfold len.
  rewrite !length_PutUintLE. lia.
Qed.

Lemma len_layout (d : LicenseData) :
  len (wire.layout d) = sizes.encodedSize d.
Proof.
  unfold wire.layout.
  change (currentVersion
          :: PutUintLE 4 (uint32 (len (wire.body d))) ++ wire.body d)
    with ((currentVersion :: PutUintLE 4 (uint32 (len (wire.body d))))
          ++ wire.body d).
  rewrite len_app, len_body. unfold len. cbn [List.length].
  rewrite length_PutUintLE. lia.
Qed.

(** X5.  The size of an encoding: 39 bytes, the bytes of the four
    identifiers, and for every list entry its bytes and the two of its
    length field.  No byte of the payload is dropped, whatever its
    lengths are. *)
Theorem EncodeLicenseData_size (d : LicenseData) (bytes : list byte) :
  EncodeLicenseData d = Ok bytes -> len bytes = sizes.encodedSize d.
Proof.
  rewrite EncodeLicenseData_layout. intros [= <-]. apply len_layout.
Qed.

(** The encoding of the scenario payload has 54 bytes. *)
Lemma EncodeLicenseData_size_L1 : len (wire.layout samples.L1) = 54.
Proof.
  exact (@EncodeLicenseData_size samples.L1 (wire.layout samples.L1)
           (EncodeLicenseData_layout samples.L1)).
Defined.

(** X6.  The header [EncodeLicenseData] writes: the first byte is the
    version, 1, and the next four, read as a little-endian [uint32], are
    the number of bytes after the five of the header, modulo 2^32. *)
Theorem EncodeLicenseData_header (d : LicenseData) (bytes : list byte) :
  EncodeLicenseData d = Ok bytes ->
  nth_error bytes 0 = Some x01
  /\ UintLE (firstn 4 (skipn 1 bytes)) = (len bytes - 5) mod 2 ^ 32.
Proof.
  intros Henc.
  rewrite EncodeLicenseData_layout in Henc. injection Henc as <-.
  split; [reflexivity|].
  rewrite len_layout, <- len_body.
  unfold wire.layout. cbn [skipn].
  rewrite firstn_app, length_PutUintLE, Nat.sub_diag, firstn_all2
    by (rewrite length_PutUintLE; lia).
  cbn [firstn]. rewrite app_nil_r, UintLE_PutUintLE.
  change (2 ^ (8 * Z.of_nat 4)) with (2 ^ 32).
  unfold uint32. now rewrite Z.mod_mod by lia.
Qed.

(** The header of the encoding of the scenario payload announces 49
    bytes. *)
Lemma EncodeLicenseData_header_L1 :
  nth_error (wire.layout samples.L1) 0 = Some x01
  /\ UintLE (firstn 4 (skipn 1 (wire.layout samples.L1)))
     = (len (wire.layout samples.L1) - 5) mod 2 ^ 32.
Proof.
  apply (@EncodeLicenseData_header samples.L1). reflexivity.
Defined.

End CodecEdges.

(** ** adapter.go *)

Section Adapter.

Import licformat.
Import widths.

Lemma FromLicenseData_decodedAs (license : adapter.License) :
  adapter.FromLicenseData
    (props.decodedAs (adapter.ToLicenseData license)
       (adapter.CustomIDs (adapter.HardwareIDs license)))
  = issue.redecoded license.
Proof. destruct license as [? ? ? ? ? ? ? [] ?]. reflexivity. Qed.

Lemma DecodeLicense_layout (license : adapter.License) :
  fieldsFit (adapter.ToLicenseData license) = true ->
  entriesFit (adapter.ToLicenseData license) = true ->
  endsNonEmpty (adapter.CustomIDs (adapter.HardwareIDs license)) = true ->
  adapter.DecodeLicense (wire.layout (adapter.ToLicenseData license))
  = Ok (issue.redecoded license).
Proof.
  intros Hfields Hentries Hlast. unfold adapter.DecodeLicense.
  rewrite DecodeLicenseData_layout
    by (assumption || (destruct license as [? ? ? ? ? ? ? [] ?];
                       exact Hlast)).
  f_equal. rewrite <- FromLicenseData_decodedAs.
  now destruct license as [? ? ? ? ? ? ? [] ?].
Qed.

(** X7.  [DecodeLicense] after [EncodeLicense]: for a license whose
    strings and lists fit their fields and whose custom ID list is empty or
    ends with a non-empty entry, the license decoded from its encoding has
    the same identifiers, features and hardware binding, dates made of the
    Unix seconds of its dates, and no signature: the signature is not part
    of the encoding. *)
Theorem DecodeLicense_EncodeLicense (license : adapter.License)
    (bytes : list byte) :
  fieldsFit (adapter.ToLicenseData license) = true ->
  entriesFit (adapter.ToLicenseData license) = true ->
  endsNonEmpty (adapter.CustomIDs (adapter.HardwareIDs license)) = true ->
  adapter.EncodeLicense license = Ok bytes ->
  adapter.DecodeLicense bytes = Ok (issue.redecoded license).
Proof.
  intros Hfields Hentries Hlast Henc.
  unfold adapter.EncodeLicense in Henc.
  rewrite EncodeLicenseData_layout in Henc.
  assert (Hbytes : bytes = wire.layout (adapter.ToLicenseData license))
    by congruence.
  rewrite Hbytes. now apply DecodeLicense_layout.
Qed.

(** The scenario license with a signature attached comes back without
    it. *)
Lemma DecodeLicense_EncodeLicense_L1 :
  adapter.DecodeLicense
    (wire.layout (adapter.ToLicenseData
                    (licverify.toFormat fixtures.license_unbound)))
  = Ok fixtures.decoded_L1.
Proof.
  apply (@DecodeLicense_EncodeLicense
           (adapter.mkLicense "L1" "C1" "P1" "S1" samples.t0
              (Add samples.t0 samples.year) ["basic"]
              (adapter.mkHardwareBinding [] [] [] [])
              fixtures.signature2048));
    reflexivity.
Defined.

End Adapter.

(** ** Loading: the split, the two formats, the key size *)

Lemma DecodeLicenseData_version (data : list byte)
    (q : licformat.LicenseData) :
  licformat.DecodeLicenseData data = Ok q -> nth_error data 0 = Some x01.
Proof.
  unfold licformat.DecodeLicenseData.
  destruct (len data <? 5); [discriminate|].
  destruct (licformat.decodeBody data) as [[q' r']|e] eqn:Hbody;
    [|discriminate].
  intros _. now apply decodeBody_length in Hbody.
Qed.

Section Loader.

Import licverify.

Variable sha256_Sum256 : list byte -> list byte.
Variable rsa_VerifyPKCS1v15 :
  PublicKey -> list byte -> list byte -> option error.
Variable json_Marshal : License -> result (list byte).
Variable json_Unmarshal : list byte -> result License.
Variable os_ReadFile : string -> result (list byte).

Local Abbreviation VerifySignature :=
  (VerifySignature sha256_Sum256 rsa_VerifyPKCS1v15 json_Marshal).
Local Abbreviation LoadLicense := (LoadLicense json_Unmarshal os_ReadFile).

(** X8.  A license [LoadLicense] returns comes from a file of at least
    256 bytes, and its signature is the last 256 bytes of that file,
    whichever of the two formats the rest was read as. *)
Theorem LoadLicense_signature_is_file_tail (v : Verifier)
    (filePath : string) (license : License) :
  LoadLicense v filePath = Ok license ->
  exists data,
    os_ReadFile filePath = Ok data
    /\ 256 <= len data
    /\ Signature license = skipn (Z.to_nat (len data - 256)) data.
Proof.
  unfold licverify.LoadLicense.
  destruct (os_ReadFile filePath) as [data|err]; [|discriminate].
  destruct (Z.ltb_spec (len data) 256) as [|Hge]; [discriminate|].
  intros H. exists data. split; [reflexivity|]. split; [assumption|].
  destruct (licformat.adapter.DecodeLicense _) as [imported|err].
  - now injection H as <-.
  - destruct (json_Unmarshal _) as [legacy|jsonErr]; [|discriminate].
    now injection H as <-.
Qed.

(** X10.  A file whose first byte is not the version byte 1, such as a
    legacy JSON license, is never read as binary: [LoadLicense] returns
    what [json.Unmarshal] makes of all but the last 256 bytes, with those
    256 bytes as signature, or an error when [json.Unmarshal] fails. *)
Theorem LoadLicense_legacy (v : Verifier) (filePath : string)
    (payload signature : list byte) :
  os_ReadFile filePath = Ok (payload ++ signature) ->
  len signature = 256 ->
  nth_error payload 0 <> Some x01 ->
  match json_Unmarshal payload with
  | Ok legacy => LoadLicense v filePath = Ok (setSignature legacy signature)
  | Err jsonErr => exists err, LoadLicense v filePath = Err err
  end.
Proof.
  intros Hfile Hsig Hversion. unfold licverify.LoadLicense. rewrite Hfile.
  destruct (split_at_256 payload signature Hsig) as (-> & -> & ->).
  unfold licformat.adapter.DecodeLicense.
  destruct (licformat.DecodeLicenseData payload) as [q|e] eqn:Hdec.
  - apply DecodeLicenseData_version in Hdec. contradiction.
  - destruct (json_Unmarshal payload); [reflexivity | eauto].
Qed.

(** X11.  Under a key whose modulus is not 256 bytes long, and a
    verification that, like [rsa.VerifyPKCS1v15], rejects a signature whose
    length is not that of the modulus, no license that [LoadLicense]
    returned passes [VerifySignature]. *)
Theorem VerifySignature_rejects_other_key_sizes (v : Verifier)
    (filePath : string) (license : License) :
  (forall hashed sig,
      len sig <> Size (publicKey v) ->
      rsa_VerifyPKCS1v15 (publicKey v) hashed sig <> None) ->
  Size (publicKey v) <> 256 ->
  LoadLicense v filePath = Ok license ->
  VerifySignature v license <> None.
Proof.
  intros Hverify Hsize Hload Hpass.
  apply LoadLicense_Signature_length in Hload.
  assert (Hne : len (Signature license) <> Size (publicKey v)) by lia.
  apply VerifySignature_None_iff in Hpass as [H|(jsonData & _ & H)];
    revert H; now apply Hverify.
Qed.

End Loader.

(** X9.  The binary format comes first: when the binary decoder accepts
    all but the last 256 bytes of the file, [LoadLicense] returns the same
    license whatever [json.Unmarshal] would have made of those bytes. *)
Theorem LoadLicense_binary_first
    (json_Unmarshal1 json_Unmarshal2 :
       list byte -> result licverify.License)
    (os_ReadFile : string -> result (list byte))
    (v : licverify.Verifier) (filePath : string)
    (payload signature : list byte) :
  os_ReadFile filePath = Ok (payload ++ signature) ->
  len signature = 256 ->
  is_ok (licformat.adapter.DecodeLicense payload) = true ->
  licverify.LoadLicense json_Unmarshal1 os_ReadFile v filePath
  = licverify.LoadLicense json_Unmarshal2 os_ReadFile v filePath
  /\ is_ok (licverify.LoadLicense json_Unmarshal1 os_ReadFile v filePath)
     = true.
Proof.
  intros Hfile Hsig Hdec.
  destruct (licformat.adapter.DecodeLicense payload) as [imported|e] eqn:Hd;
    [|discriminate].
  rewrite (@LoadLicense_binary json_Unmarshal1 os_ReadFile v filePath
             payload signature imported Hfile Hsig Hd).
  rewrite (@LoadLicense_binary json_Unmarshal2 os_ReadFile v filePath
             payload signature imported Hfile Hsig Hd).
  now split.
Qed.

(** The stand-in verification rejects a signature of another length. *)
Lemma verify_length (pub : PublicKey) (hashed sig : list byte) :
  len sig <> Size pub -> fixtures.verify pub hashed sig <> None.
Proof.
  intros Hne. unfold fixtures.verify.
  destruct (Z.eqb_spec (len sig) (Size pub)); [contradiction|].
  discriminate.
Qed.

(** The scenario file: its signature is its last 256 bytes. *)
Lemma LoadLicense_signature_is_file_tail_L1 :
  exists data,
    fixtures.oneFile "license.lic"
      (fixtures.payload_L1 ++ fixtures.signature2048) "license.lic"
    = Ok data
    /\ 256 <= len data
    /\ licverify.Signature
         (licverify.ofFormat fixtures.decoded_L1 fixtures.signature2048)
       = skipn (Z.to_nat (len data - 256)) data.
Proof.
  apply (@LoadLicense_signature_is_file_tail fixtures.unmarshal
           (fixtures.oneFile "license.lic"
              (fixtures.payload_L1 ++ fixtures.signature2048))
           fixtures.verifier2048 "license.lic").
  reflexivity.
Defined.

(** The scenario file is loaded alike whether [json.Unmarshal] fails or
    returns some license. *)
Lemma LoadLicense_binary_first_L1 :
  licverify.LoadLicense fixtures.unmarshal
    (fixtures.oneFile "license.lic"
       (fixtures.payload_L1 ++ fixtures.signature2048))
    fixtures.verifier2048 "license.lic"
  = licverify.LoadLicense (fun _ => Ok fixtures.license_M1_H1)
      (fixtures.oneFile "license.lic"
         (fixtures.payload_L1 ++ fixtures.signature2048))
      fixtures.verifier2048 "license.lic"
  /\ is_ok
       (licverify.LoadLicense fixtures.unmarshal
          (fixtures.oneFile "license.lic"
             (fixtures.payload_L1 ++ fixtures.signature2048))
          fixtures.verifier2048 "license.lic") = true.
Proof.
  apply (@LoadLicense_binary_first fixtures.unmarshal
           (fun _ => Ok fixtures.license_M1_H1)
           (fixtures.oneFile "license.lic"
              (fixtures.payload_L1 ++ fixtures.signature2048))
           fixtures.verifier2048 "license.lic"
           fixtures.payload_L1 fixtures.signature2048);
    reflexivity.
Defined.

(** A file that starts with an opening brace goes to [json.Unmarshal]. *)
Lemma LoadLicense_legacy_json :
  licverify.LoadLicense (fun _ => Ok fixtures.license_M1_H1)
    (fixtures.oneFile "old.lic"
       (list_byte_of_string "{}" ++ fixtures.signature2048))
    fixtures.verifier2048 "old.lic"
  = Ok (licverify.setSignature fixtures.license_M1_H1
          fixtures.signature2048).
Proof.
  apply (@LoadLicense_legacy (fun _ => Ok fixtures.license_M1_H1)
           (fixtures.oneFile "old.lic"
              (list_byte_of_string "{}" ++ fixtures.signature2048))
           fixtures.verifier2048 "old.lic"
           (list_byte_of_string "{}") fixtures.signature2048);
    first [reflexivity | discriminate].
Defined.

(** The license written under the 4096-bit key and loaded does not pass
    under that key. *)
Lemma VerifySignature_rejects_key4096 :
  licverify.VerifySignature fixtures.digest fixtures.verify fixtures.marshal
    fixtures.verifier4096 fixtures.loaded4096 <> None.
Proof.
  apply (@VerifySignature_rejects_other_key_sizes
           fixtures.digest fixtures.verify fixtures.marshal
           fixtures.unmarshal
           (fixtures.oneFile "license.lic" fixtures.file4096)
           fixtures.verifier4096 "license.lic" fixtures.loaded4096).
  - intros hashed sig. apply verify_length.
  - vm_compute. discriminate.
  - vm_compute. reflexivity.
Defined.

(** ** From [GenerateLicense] to [IsValid] *)

Section EndToEnd.

Import licverify.

Variable sha256_Sum256 : list byte -> list byte.
Variable rsa_SignPKCS1v15 : PrivateKey -> list byte -> result (list byte).
Variable rsa_VerifyPKCS1v15 :
  PublicKey -> list byte -> list byte -> option error.
Variable json_Marshal : License -> result (list byte).
Variable json_Unmarshal : list byte -> result License.
Variable os_ReadFile : string -> result (list byte).

Local Abbreviation GenerateLicense :=
  (licgen.GenerateLicense sha256_Sum256 rsa_SignPKCS1v15).
Local Abbreviation VerifySignature :=
  (VerifySignature sha256_Sum256 rsa_VerifyPKCS1v15 json_Marshal).
Local Abbreviation LoadLicense := (LoadLicense json_Unmarshal os_ReadFile).
Local Abbreviation IsValid :=
  (IsValid sha256_Sum256 rsa_VerifyPKCS1v15 json_Marshal).

Lemma ofFormat_redecoded (license : License) (signature : list byte) :
  ofFormat (issue.redecoded (toFormat license)) signature
  = issue.reloaded license signature.
Proof. destruct license as [? ? ? ? ? ? ? [] ?]. reflexivity. Qed.

Lemma layout_reloaded (license : License) (signature : list byte) :
  wire.layout
    (licformat.adapter.ToLicenseData
       (toFormat (withoutSignature (issue.reloaded license signature))))
  = wire.layout (issue.payloadOf license).
Proof.
  rewrite <- (layout_decodedAs (issue.payloadOf license)).
  now destruct license as [? ? ? ? ? ? ? [] ?].
Qed.

(** What [GenerateLicense] returns: an error when signing fails, and
    otherwise the encoding of the license followed by the signature of its
    digest. *)
Lemma GenerateLicense_cases (now1 now2 : Time)
    (id customerID productID serialNumber : string) (expiryDuration : Z)
    (features : list string) (hardwareIDs : HardwareBinding)
    (privateKey : PrivateKey) :
  GenerateLicense now1 now2 id customerID productID serialNumber
    expiryDuration features hardwareIDs privateKey
  = match
      rsa_SignPKCS1v15 privateKey
        (sha256_Sum256
           (wire.layout
              (issue.payloadOf
                 (issue.issued now1 now2 id customerID productID
                    serialNumber expiryDuration features hardwareIDs))))
    with
    | Ok signature =>
        Ok (wire.layout
              (issue.payloadOf
                 (issue.issued now1 now2 id customerID productID
                    serialNumber expiryDuration features hardwareIDs))
            ++ signature)
    | Err err =>
        Err (Errorf "failed to sign license: %v"
               (Errorf "failed to sign data: %v" err))
    end.
Proof.
  unfold licgen.GenerateLicense, licgen.SignData.
  rewrite EncodeLicense_layout.
  fold (issue.issued now1 now2 id customerID productID serialNumber
          expiryDuration features hardwareIDs).
  fold (issue.payloadOf
          (issue.issued now1 now2 id customerID productID serialNumber
             expiryDuration features hardwareIDs)).
  now destruct (rsa_SignPKCS1v15 privateKey _).
Qed.

Section Issued.

Variables (now1 now2 : Time)
  (id customerID productID serialNumber : string) (expiryDuration : Z)
  (features : list string) (hardwareIDs : HardwareBinding)
  (privateKey : PrivateKey) (v : Verifier) (filePath : string)
  (licenseFile : list byte).

Let license : License :=
  issue.issued now1 now2 id customerID productID serialNumber
    expiryDuration features hardwareIDs.

Hypothesis signature_256 :
  forall hashed signature,
    rsa_SignPKCS1v15 privateKey hashed = Ok signature ->
    len signature = 256.
Hypothesis fields_fit : widths.fieldsFit (issue.payloadOf license) = true.
Hypothesis entries_fit : widths.entriesFit (issue.payloadOf license) = true.
Hypothesis last_custom :
  widths.endsNonEmpty (CustomIDs (HardwareIDs license)) = true.
Hypothesis generated :
  GenerateLicense now1 now2 id customerID productID serialNumber
    expiryDuration features hardwareIDs privateKey = Ok licenseFile.
Hypothesis stored : os_ReadFile filePath = Ok licenseFile.

(** The file is the encoding and a signature, and it is loaded as the
    license that was issued, its dates at the second. *)
Lemma generated_then_loaded :
  exists signature,
    rsa_SignPKCS1v15 privateKey
      (sha256_Sum256 (wire.layout (issue.payloadOf license)))
    = Ok signature
    /\ licenseFile = wire.layout (issue.payloadOf license) ++ signature
    /\ LoadLicense v filePath = Ok (issue.reloaded license signature).
Proof.
  pose proof generated as Hgen. rewrite GenerateLicense_cases in Hgen.
  fold license in Hgen.
  destruct (rsa_SignPKCS1v15 privateKey _) as [signature|err] eqn:Hsign;
    [|discriminate].
  assert (Hfile : licenseFile
                  = wire.layout (issue.payloadOf license) ++ signature)
    by congruence.
  exists signature.
  split; [reflexivity|]. split; [assumption|].
  rewrite <- ofFormat_redecoded.
  apply LoadLicense_binary
    with (payload := wire.layout (issue.payloadOf license)).
  - now rewrite stored, Hfile.
  - now apply signature_256 in Hsign.
  - apply (DecodeLicense_layout (toFormat license));
      first [exact fields_fit | exact entries_fit | exact last_custom].
Qed.

(** X12.  A file written by [GenerateLicense] with a key whose signatures
    have 256 bytes, for a license whose strings and lists fit their fields
    and whose custom ID list is empty or ends with a non-empty entry, is
    loaded by [LoadLicense] as the license that was issued, with its issue
    and expiry dates cut to the second and the signature of the file. *)
Theorem LoadLicense_GenerateLicense :
  exists signature,
    len signature = 256
    /\ licenseFile = wire.layout (issue.payloadOf license) ++ signature
    /\ LoadLicense v filePath = Ok (issue.reloaded license signature).
Proof.
  destruct generated_then_loaded as (signature & Hsign & Hfile & Hload).
  exists signature. split; [|now split].
  now apply signature_256 in Hsign.
Qed.

(** X13.  If, besides, the verification accepts under the key of the
    verifier what was signed under the private key, the license loaded
    from that file passes [VerifySignature]: the bytes encoded again for
    the check are the bytes that were signed. *)
Theorem VerifySignature_GenerateLicense (loaded : License) :
  (forall data signature,
      rsa_SignPKCS1v15 privateKey (sha256_Sum256 data) = Ok signature ->
      rsa_VerifyPKCS1v15 (publicKey v) (sha256_Sum256 data) signature
      = None) ->
  LoadLicense v filePath = Ok loaded ->
  VerifySignature v loaded = None.
Proof.
  intros Hpair Hload.
  destruct generated_then_loaded as (signature & Hsign & _ & Hload').
  rewrite Hload' in Hload. injection Hload as <-.
  apply VerifySignature_None_iff. left.
  rewrite layout_reloaded. now apply Hpair.
Qed.

(** X14.  Under the same conditions the license loaded from that file is
    valid exactly when the hardware check passes for the binding it was
    issued with and the current time is not after its expiry date cut to
    the second. *)
Theorem IsValid_GenerateLicense (hw : result hardware.HardwareInfo)
    (now : Time) (loaded : License) :
  (forall data signature,
      rsa_SignPKCS1v15 privateKey (sha256_Sum256 data) = Ok signature ->
      rsa_VerifyPKCS1v15 (publicKey v) (sha256_Sum256 data) signature
      = None) ->
  LoadLicense v filePath = Ok loaded ->
  IsValid hw now loaded v = None
  <-> VerifyHardwareBinding hw license = None
      /\ After now (time_Unix (Unix (Add now2 expiryDuration))) = false.
Proof.
  intros Hpair Hload.
  destruct generated_then_loaded as (signature & Hsign & _ & Hload').
  rewrite Hload' in Hload. injection Hload as <-.
  assert (Hsig : VerifySignature v (issue.reloaded license signature)
                 = None).
  { apply VerifySignature_None_iff. left.
    rewrite layout_reloaded. now apply Hpair. }
  rewrite IsValid_None_iff.
  change (VerifyHardwareBinding hw (issue.reloaded license signature))
    with (VerifyHardwareBinding hw license).
  unfold VerifyExpiry. cbn [ExpiryDate issue.reloaded license issue.issued].
  destruct (After now (time_Unix (Unix (Add now2 expiryDuration))));
    intuition discriminate.
Qed.

End Issued.

End EndToEnd.

(** The stand-in signer and verification under the 2048-bit key. *)
Lemma sign_key2048 (hashed signature : list byte) :
  fixtures.sign fixtures.key2048 hashed = Ok signature ->
  len signature = 256.
Proof.
  intros H.
  rewrite (@sign_length fixtures.key2048 hashed signature);
    [reflexivity | vm_compute; discriminate | exact H].
Qed.

Lemma verify_sign_key2048 (data signature : list byte) :
  fixtures.sign fixtures.key2048 (fixtures.digest data) = Ok signature ->
  fixtures.verify (licverify.publicKey fixtures.verifier2048)
    (fixtures.digest data) signature = None.
Proof.
  unfold fixtures.sign. intros H.
  assert (Hs : signature = repeat xff (Z.to_nat (Size (Public fixtures.key2048))))
    by congruence.
  rewrite Hs. vm_compute. reflexivity.
Qed.

(** The scenario license, issued under the 2048-bit key and loaded. *)
Lemma LoadLicense_GenerateLicense_L1 :
  exists signature,
    len signature = 256
    /\ fixtures.payload_L1 ++ fixtures.signature2048
       = wire.layout
           (issue.payloadOf
              (issue.issued samples.t0 samples.t0 "L1" "C1" "P1" "S1"
                 samples.year ["basic"]
                 (licverify.mkHardwareBinding [] [] [] [])))
         ++ signature
    /\ licverify.LoadLicense fixtures.unmarshal
         (fixtures.oneFile "license.lic"
            (fixtures.payload_L1 ++ fixtures.signature2048))
         fixtures.verifier2048 "license.lic"
       = Ok (issue.reloaded
               (issue.issued samples.t0 samples.t0 "L1" "C1" "P1" "S1"
                  samples.year ["basic"]
                  (licverify.mkHardwareBinding [] [] [] []))
               signature).
Proof.
  apply (@LoadLicense_GenerateLicense fixtures.digest fixtures.sign
           fixtures.unmarshal
           (fixtures.oneFile "license.lic"
              (fixtures.payload_L1 ++ fixtures.signature2048))
           samples.t0 samples.t0 "L1" "C1" "P1" "S1" samples.year ["basic"]
           (licverify.mkHardwareBinding [] [] [] []) fixtures.key2048
           fixtures.verifier2048 "license.lic"
           (fixtures.payload_L1 ++ fixtures.signature2048));
    first [exact sign_key2048 | vm_compute; reflexivity].
Defined.

(** It passes [VerifySignature]. *)
Lemma VerifySignature_GenerateLicense_L1 :
  licverify.VerifySignature fixtures.digest fixtures.verify fixtures.marshal
    fixtures.verifier2048
    (licverify.ofFormat fixtures.decoded_L1 fixtures.signature2048)
  = None.
Proof.
  apply (@VerifySignature_GenerateLicense fixtures.digest fixtures.sign
           fixtures.verify fixtures.marshal fixtures.unmarshal
           (fixtures.oneFile "license.lic"
              (fixtures.payload_L1 ++ fixtures.signature2048))
           samples.t0 samples.t0 "L1" "C1" "P1" "S1" samples.year ["basic"]
           (licverify.mkHardwareBinding [] [] [] []) fixtures.key2048
           fixtures.verifier2048 "license.lic"
           (fixtures.payload_L1 ++ fixtures.signature2048));
    first [exact sign_key2048 | exact verify_sign_key2048
          | vm_compute; reflexivity].
Defined.

(** And it is valid at the time of issue on any machine, being unbound. *)
Lemma IsValid_GenerateLicense_L1 :
  licverify.IsValid fixtures.digest fixtures.verify fixtures.marshal
    (Ok fixtures.machine_M2_H2) samples.t0
    (licverify.ofFormat fixtures.decoded_L1 fixtures.signature2048)
    fixtures.verifier2048 = None
  <-> licverify.VerifyHardwareBinding (Ok fixtures.machine_M2_H2)
        (issue.issued samples.t0 samples.t0 "L1" "C1" "P1" "S1"
           samples.year ["basic"] (licverify.mkHardwareBinding [] [] [] []))
      = None
      /\ After samples.t0 (time_Unix (Unix (Add samples.t0 samples.year)))
         = false.
Proof.
  apply (@IsValid_GenerateLicense fixtures.digest fixtures.sign
           fixtures.verify fixtures.marshal fixtures.unmarshal
           (fixtures.oneFile "license.lic"
              (fixtures.payload_L1 ++ fixtures.signature2048))
           samples.t0 samples.t0 "L1" "C1" "P1" "S1" samples.year ["basic"]
           (licverify.mkHardwareBinding [] [] [] []) fixtures.key2048
           fixtures.verifier2048 "license.lic"
           (fixtures.payload_L1 ++ fixtures.signature2048));
    first [exact sign_key2048 | exact verify_sign_key2048
          | vm_compute; reflexivity].
Defined.

(** ** More on the hardware check *)

Section HardwareEdges.

Import licverify.

(** X15.  The whole policy of [VerifyHardwareBinding]: it passes exactly
    when the hardware was detected and, for each of the MAC addresses, the
    disk IDs and the host names, the license names none or one of those it
    names was detected. *)
Theorem VerifyHardwareBinding_policy
    (res : result hardware.HardwareInfo) (license : License) :
  VerifyHardwareBinding res license = None
  <-> exists hwInfo,
        res = Ok hwInfo
        /\ (MACAddresses (HardwareIDs license) = []
            \/ exists s, In s (hardware.MACAddresses hwInfo)
                         /\ In s (MACAddresses (HardwareIDs license)))
        /\ (DiskIDs (HardwareIDs license) = []
            \/ exists s, In s (hardware.DiskIDs hwInfo)
                         /\ In s (DiskIDs (HardwareIDs license)))
        /\ (HostNames (HardwareIDs license) = []
            \/ In (hardware.Hostname hwInfo)
                 (HostNames (HardwareIDs license))).
Proof. apply VerifyHardwareBinding_None_iff. Qed.

(** X16.  [VerifyHardwareBinding] reads the MAC addresses, disk IDs and
    host names of the license and the MAC addresses, disk IDs and host name
    of the machine, and nothing else: neither the custom IDs nor any other
    field of the license, nor the CPU of the machine, changes its
    result. *)
Theorem VerifyHardwareBinding_reads_three_lists
    (hw1 hw2 : hardware.HardwareInfo) (license1 license2 : License) :
  MACAddresses (HardwareIDs license1) = MACAddresses (HardwareIDs license2) ->
  DiskIDs (HardwareIDs license1) = DiskIDs (HardwareIDs license2) ->
  HostNames (HardwareIDs license1) = HostNames (HardwareIDs license2) ->
  hardware.MACAddresses hw1 = hardware.MACAddresses hw2 ->
  hardware.DiskIDs hw1 = hardware.DiskIDs hw2 ->
  hardware.Hostname hw1 = hardware.Hostname hw2 ->
  VerifyHardwareBinding (Ok hw1) license1
  = VerifyHardwareBinding (Ok hw2) license2.
Proof.
  intros Hm Hd Hh Hm' Hd' Hh'. unfold VerifyHardwareBinding.
  now rewrite Hm, Hd, Hh, Hm', Hd', Hh'.
Qed.

Lemma containsAny_false (slice1 slice2 : list string) :
  (forall s, In s slice1 -> ~ In s slice2) ->
  containsAny slice1 slice2 = false.
Proof.
  intros Hnone. destruct (containsAny slice1 slice2) eqn:H; [|reflexivity].
  apply containsAny_In in H as (s & H1 & H2). now apply Hnone in H1.
Qed.

Lemma containsAny_true (slice1 slice2 : list string) :
  slice2 = [] \/ (exists s, In s slice1 /\ In s slice2) ->
  (0 <? len slice2) && negb (containsAny slice1 slice2) = false.
Proof.
  intros [->|H]; [reflexivity|].
  apply containsAny_In in H. rewrite H. apply andb_false_r.
Qed.

(** X17.  The error [VerifyHardwareBinding] reports is that of the first
    dimension that fails, in the order MAC addresses, disk IDs, host
    names: a MAC mismatch whatever the disks and the host name are, a disk
    mismatch when the MAC check passes, a host name mismatch when both
    pass. *)
Theorem VerifyHardwareBinding_first_failure
    (hwInfo : hardware.HardwareInfo) (license : License) :
  (MACAddresses (HardwareIDs license) <> [] ->
   (forall s, In s (hardware.MACAddresses hwInfo) ->
              ~ In s (MACAddresses (HardwareIDs license))) ->
   VerifyHardwareBinding (Ok hwInfo) license
   = Some (New
       "license is not valid for this hardware (MAC address mismatch)"))
  /\ (MACAddresses (HardwareIDs license) = []
      \/ (exists s, In s (hardware.MACAddresses hwInfo)
                    /\ In s (MACAddresses (HardwareIDs license))) ->
      DiskIDs (HardwareIDs license) <> [] ->
      (forall s, In s (hardware.DiskIDs hwInfo) ->
                 ~ In s (DiskIDs (HardwareIDs license))) ->
      VerifyHardwareBinding (Ok hwInfo) license
      = Some (New
          "license is not valid for this hardware (disk ID mismatch)"))
  /\ (MACAddresses (HardwareIDs license) = []
      \/ (exists s, In s (hardware.MACAddresses hwInfo)
                    /\ In s (MACAddresses (HardwareIDs license))) ->
      DiskIDs (HardwareIDs license) = []
      \/ (exists s, In s (hardware.DiskIDs hwInfo)
                    /\ In s (DiskIDs (HardwareIDs license))) ->
      HostNames (HardwareIDs license) <> [] ->
      ~ In (hardware.Hostname hwInfo) (HostNames (HardwareIDs license)) ->
      VerifyHardwareBinding (Ok hwInfo) license
      = Some (New
          "license is not valid for this hardware (hostname mismatch)")).
Proof.
  unfold VerifyHardwareBinding. repeat split.
  - intros Hne Hnone. apply len_pos in Hne.
    now rewrite Hne, (@containsAny_false _ _ Hnone).
  - intros Hmac Hne Hnone. apply len_pos in Hne.
    now rewrite (@containsAny_true _ _ Hmac), Hne,
      (@containsAny_false _ _ Hnone).
  - intros Hmac Hdisk Hne Hnone. apply len_pos in Hne.
    rewrite (@containsAny_true _ _ Hmac), (@containsAny_true _ _ Hdisk), Hne.
    destruct (contains _ _) eqn:Hc; [|reflexivity].
    apply contains_In in Hc. contradiction.
Qed.

(** The license naming [M1] and [H1] on three machines. *)
Lemma VerifyHardwareBinding_first_failure_M1_H1 :
  VerifyHardwareBinding (Ok fixtures.machine_M2_H2) fixtures.license_M1_H1
  = Some (New "license is not valid for this hardware (MAC address mismatch)")
  /\ VerifyHardwareBinding (Ok fixtures.machine_M1_H2)
       fixtures.license_M1_H1
     = Some (New "license is not valid for this hardware (hostname mismatch)").
Proof.
  split.
  - apply (VerifyHardwareBinding_first_failure fixtures.machine_M2_H2
             fixtures.license_M1_H1); [discriminate|].
    intros s [<-|[]] [H|[]]. discriminate H.
  - apply (VerifyHardwareBinding_first_failure fixtures.machine_M1_H2
             fixtures.license_M1_H1).
    + right. exists fixtures.M1. cbn. auto.
    + now left.
    + discriminate.
    + intros [H|[]]. discriminate H.
Defined.

(** The unbound license and the license naming [M1] and [H1] with a custom
    ID added, on machines that differ by their CPU only. *)
Lemma VerifyHardwareBinding_reads_three_lists_M1_H1 :
  VerifyHardwareBinding (Ok fixtures.machine_M1_H1) fixtures.license_M1_H1
  = VerifyHardwareBinding
      (Ok (hardware.mkHardwareInfo [fixtures.M2; fixtures.M1] ["disk-1"]
             fixtures.H1 "another cpu"))
      (mkLicense "L2" "C2" "P2" "S2" samples.t0 samples.t0 []
         (mkHardwareBinding [fixtures.M1] [] [fixtures.H1] ["dongle-7"])
         []).
Proof.
  apply VerifyHardwareBinding_reads_three_lists; reflexivity.
Defined.

(** X18.  [containsAny] does not depend on the order of its arguments: it
    tells whether the two slices have a string in common. *)
Theorem containsAny_comm (slice1 slice2 : list string) :
  containsAny slice1 slice2 = containsAny slice2 slice1.
Proof.
  destruct (containsAny slice1 slice2) eqn:H12,
    (containsAny slice2 slice1) eqn:H21; try reflexivity.
  - apply containsAny_In in H12 as (s & H1 & H2).
    assert (H : containsAny slice2 slice1 = true)
      by (apply containsAny_In; eauto).
    congruence.
  - apply containsAny_In in H21 as (s & H1 & H2).
    assert (H : containsAny slice1 slice2 = true)
      by (apply containsAny_In; eauto).
    congruence.
Qed.

End HardwareEdges.

(** ** More on the expiry check *)

Section ExpiryEdges.

Import licverify.

Lemma After_false_iff (t u : Time) :
  After t u = false
  <-> seconds t < seconds u
      \/ (seconds t = seconds u /\ nanosecond t <= nanosecond u).
Proof.
  unfold After.
  destruct (Z.ltb_spec (seconds u) (seconds t)),
    (Z.eqb_spec (seconds t) (seconds u)),
    (Z.ltb_spec (nanosecond u) (nanosecond t));
    cbn [orb andb]; split; intros; try discriminate; try reflexivity; lia.
Qed.

(** X19.  A license that has not expired now had not expired at any time
    that is not after now. *)
Theorem VerifyExpiry_earlier (now earlier : Time) (license : License) :
  After earlier now = false ->
  VerifyExpiry now license = None ->
  VerifyExpiry earlier license = None.
Proof.
  unfold VerifyExpiry. intros Hearlier.
  destruct (After now (ExpiryDate license)) eqn:Hnow; [discriminate|].
  intros _.
  destruct (After earlier (ExpiryDate license)) eqn:He; [|reflexivity].
  apply After_false_iff in Hearlier, Hnow.
  assert (Hf : After earlier (ExpiryDate license) = false)
    by (apply After_false_iff; lia).
  congruence.
Qed.

(** The scenario license at its expiry date, and at its issue date. *)
Lemma VerifyExpiry_earlier_L1 :
  VerifyExpiry samples.t0 fixtures.license_unbound = None.
Proof.
  apply (@VerifyExpiry_earlier (ExpiryDate fixtures.license_unbound)
           samples.t0 fixtures.license_unbound); reflexivity.
Defined.

End ExpiryEdges.

(** X20.  Reading a license back never lengthens its life.  Under the
    conditions of X12, and with an expiry date in the range of [Unix()], a
    license loaded from the file that has not expired now is one whose
    expiry date, as it was issued with its nanoseconds, has not passed
    either. *)
Theorem VerifyExpiry_GenerateLicense
    (sha256_Sum256 : list byte -> list byte)
    (rsa_SignPKCS1v15 : PrivateKey -> list byte -> result (list byte))
    (json_Unmarshal : list byte -> result licverify.License)
    (os_ReadFile : string -> result (list byte))
    (now1 now2 : Time) (id customerID productID serialNumber : string)
    (expiryDuration : Z) (features : list string)
    (hardwareIDs : licverify.HardwareBinding) (privateKey : PrivateKey)
    (v : licverify.Verifier) (filePath : string) (licenseFile : list byte)
    (now : Time) (loaded : licverify.License) :
  (forall hashed signature,
      rsa_SignPKCS1v15 privateKey hashed = Ok signature ->
      len signature = 256) ->
  widths.fieldsFit
    (issue.payloadOf
       (issue.issued now1 now2 id customerID productID serialNumber
          expiryDuration features hardwareIDs)) = true ->
  widths.entriesFit
    (issue.payloadOf
       (issue.issued now1 now2 id customerID productID serialNumber
          expiryDuration features hardwareIDs)) = true ->
  widths.endsNonEmpty (licverify.CustomIDs hardwareIDs) = true ->
  licgen.GenerateLicense sha256_Sum256 rsa_SignPKCS1v15 now1 now2
    id customerID productID serialNumber expiryDuration features
    hardwareIDs privateKey = Ok licenseFile ->
  os_ReadFile filePath = Ok licenseFile ->
  issue.representable (Add now2 expiryDuration) ->
  licverify.LoadLicense json_Unmarshal os_ReadFile v filePath = Ok loaded ->
  licverify.VerifyExpiry now loaded = None ->
  After now (Add now2 expiryDuration) = false.
Proof.
  intros Hsig Hfields Hentries Hlast Hgen Hfile [Hrange Hnano] Hload Hnow.
  destruct (@generated_then_loaded sha256_Sum256 rsa_SignPKCS1v15
              json_Unmarshal os_ReadFile now1 now2 id customerID productID
              serialNumber expiryDuration features hardwareIDs privateKey
              v filePath licenseFile Hsig Hfields Hentries Hlast Hgen Hfile)
    as (signature & _ & _ & Hload').
  rewrite Hload' in Hload. injection Hload as <-.
  unfold licverify.VerifyExpiry in Hnow.
  cbn [licverify.ExpiryDate issue.reloaded issue.issued] in Hnow.
  destruct (After now (time_Unix (Unix (Add now2 expiryDuration))))
    eqn:Hcut; [discriminate|].
  unfold Unix in Hcut. rewrite int64_small in Hcut by assumption.
  apply After_false_iff in Hcut.
  destruct (time_Unix_le Hrange) as [Hle Hzero]. rewrite Hzero in Hcut.
  apply After_false_iff. lia.
Qed.

(** The scenario license, loaded, at the time of issue. *)
Lemma VerifyExpiry_GenerateLicense_L1 :
  After samples.t0 (Add samples.t0 samples.year) = false.
Proof.
  apply (@VerifyExpiry_GenerateLicense fixtures.digest fixtures.sign
           fixtures.unmarshal
           (fixtures.oneFile "license.lic"
              (fixtures.payload_L1 ++ fixtures.signature2048))
           samples.t0 samples.t0 "L1" "C1" "P1" "S1" samples.year ["basic"]
           (licverify.mkHardwareBinding [] [] [] []) fixtures.key2048
           fixtures.verifier2048 "license.lic"
           (fixtures.payload_L1 ++ fixtures.signature2048)
           samples.t0
           (licverify.ofFormat fixtures.decoded_L1 fixtures.signature2048));
    first [exact sign_key2048 | vm_compute; reflexivity
          | vm_compute; intuition discriminate].
Defined.

(** ** hardware.go: detecting the machine *)

Section Detection.

Import licverify.
Import detect.

Lemma HardwareAddr_loop_length (a buf : list byte) (i : nat) :
  List.length (HardwareAddr_loop i a buf)
  = (List.length buf + 3 * List.length a
     - (match i, a with O, _ :: _ => 1 | _, _ => 0 end))%nat.
Proof.
  revert buf i. induction a as [|b a IH]; intros buf i.
  - cbn. destruct i; lia.
  - cbn [HardwareAddr_loop]. rewrite IH.
    destruct i; cbn [Nat.ltb Nat.leb List.length];
      rewrite ?length_app; cbn [List.length]; destruct a; lia.
Qed.

(** The text of a hardware address: empty for the empty address, and
    otherwise two digits for each byte and a colon between two bytes. *)
Lemma HardwareAddr_String_length (a : list byte) :
  widths.strlen (HardwareAddr_String a)
  = if len a =? 0 then 0 else 3 * len a - 1.
Proof.
  unfold HardwareAddr_String, widths.strlen.
  destruct a as [|b a]; [reflexivity|].
  change (len (b :: a) =? 0) with false. cbv iota.
  rewrite list_byte_of_string_of_list_byte. unfold len.
  rewrite HardwareAddr_loop_length. cbn [List.length]. lia.
Qed.

Lemma usable_iff (iface : Interface) :
  usable iface = true
  <-> Z.land (Flags iface) net_FlagUp <> 0
      /\ Z.land (Flags iface) net_FlagLoopback = 0
      /\ HardwareAddr iface <> [].
Proof.
  unfold usable. rewrite !andb_true_iff, negb_true_iff, Z.eqb_neq, Z.eqb_eq.
  rewrite HardwareAddr_String_length.
  destruct (HardwareAddr iface) as [|b a].
  - cbn. intuition (congruence || discriminate).
  - change (len (b :: a) =? 0) with false. cbv iota.
    assert ((0 <? 3 * len (b :: a) - 1) = true)
      by (apply Z.ltb_lt; unfold len; cbn [List.length]; lia).
    intuition (congruence || discriminate).
Qed.

Lemma getMACAddresses_loop (interfaces : list Interface)
    (macAddresses : list string) :
  fold_left
    (fun macAddresses iface =>
       if usable iface
       then macAddresses ++ [HardwareAddr_String (HardwareAddr iface)]
       else macAddresses)
    interfaces macAddresses
  = macAddresses
    ++ map (fun iface => HardwareAddr_String (HardwareAddr iface))
         (filter usable interfaces).
Proof.
  revert macAddresses.
  induction interfaces as [|iface interfaces IH]; intros macAddresses.
  - cbn. now rewrite app_nil_r.
  - cbn [fold_left filter]. rewrite IH.
    destruct (usable iface); [|reflexivity].
    cbn [map]. now rewrite <- app_assoc.
Qed.

Lemma getMACAddresses_cases (interfaces : list Interface) :
  getMACAddresses (Ok interfaces)
  = match filter usable interfaces with
    | [] => Err (New "no valid MAC addresses found")
    | _ :: _ =>
        Ok (map (fun iface => HardwareAddr_String (HardwareAddr iface))
              (filter usable interfaces))
    end.
Proof.
  unfold getMACAddresses. rewrite getMACAddresses_loop. cbn [app].
  now destruct (filter usable interfaces).
Qed.

(** X21.  What [getMACAddresses] returns for the interfaces of the
    machine: the addresses, in the order of the interfaces, of those that
    are up, are not the loopback and have a hardware address.  The list it
    returns is never empty and holds no empty string; when no interface
    qualifies it returns an error. *)
Theorem getMACAddresses_usable (interfaces : list Interface) :
  (forall macs,
      getMACAddresses (Ok interfaces) = Ok macs ->
      macs <> []
      /\ macs = map (fun iface => HardwareAddr_String (HardwareAddr iface))
                  (filter usable interfaces)
      /\ (forall m, In m macs ->
            m <> ""
            /\ exists iface,
                 In iface interfaces
                 /\ Z.land (Flags iface) net_FlagUp <> 0
                 /\ Z.land (Flags iface) net_FlagLoopback = 0
                 /\ HardwareAddr iface <> []
                 /\ m = HardwareAddr_String (HardwareAddr iface)))
  /\ ((forall iface, In iface interfaces -> usable iface = false) ->
      getMACAddresses (Ok interfaces)
      = Err (New "no valid MAC addresses found")).
Proof.
  rewrite getMACAddresses_cases. split.
  - intros macs Hmacs.
    assert (Hmap :
      macs = map (fun iface => HardwareAddr_String (HardwareAddr iface))
               (filter usable interfaces)
      /\ filter usable interfaces <> []).
    { destruct (filter usable interfaces);
        [discriminate | split; [congruence | discriminate]]. }
    destruct Hmap as [-> Hne].
    split; [destruct (filter usable interfaces); [congruence|discriminate]|].
    split; [reflexivity|].
    intros m Hin. apply in_map_iff in Hin as (iface & <- & Hin).
    apply filter_In in Hin as [Hin Hu]. apply usable_iff in Hu.
    split.
    + intros Hempty.
      pose proof (HardwareAddr_String_length (HardwareAddr iface)) as Hl.
      rewrite Hempty in Hl. destruct (HardwareAddr iface) as [|b a];
        [tauto|].
      change (len (b :: a) =? 0) with false in Hl. cbv iota in Hl.
      change (widths.strlen "") with 0 in Hl.
      unfold len in Hl. cbn [List.length] in Hl. lia.
    + exists iface. tauto.
  - intros Hnone.
    destruct (filter usable interfaces) as [|i0 l] eqn:Hf; [reflexivity|].
    assert (Hin : In i0 (filter usable interfaces))
      by (rewrite Hf; now left).
    apply filter_In in Hin as [Hin Hu]. rewrite (Hnone _ Hin) in Hu.
    discriminate.
Qed.

(** The machine with a card up, the loopback and a card down. *)
Lemma getMACAddresses_usable_wired :
  getMACAddresses (Ok [machines.lo; machines.eth0; machines.eth1])
  = Ok ["00:11:22:33:44:55"]
  /\ getMACAddresses (Ok [machines.lo; machines.eth1])
     = Err (New "no valid MAC addresses found").
Proof.
  split.
  - reflexivity.
  - apply (getMACAddresses_usable [machines.lo; machines.eth1]).
    intros iface [<-|[<-|[]]]; reflexivity.
Defined.

(** X22.  On a machine where no interface is up, not the loopback and
    with a hardware address, [GetHardwareInfo] fails and so does
    [VerifyHardwareBinding], for every license, also one that names no
    hardware at all. *)
Theorem VerifyHardwareBinding_without_interface (host : Host)
    (interfaces : list Interface) (license : License) :
  net_Interfaces host = Ok interfaces ->
  (forall iface, In iface interfaces -> usable iface = false) ->
  VerifyHardwareBinding (GetHardwareInfo host) license
  = Some
      (Errorf "failed to get hardware info: %v"
         (Errorf "failed to get MAC addresses: %v"
            (New "no valid MAC addresses found"))).
Proof.
  intros Hifaces Hnone. unfold GetHardwareInfo. rewrite Hifaces.
  rewrite getMACAddresses_cases.
  destruct (filter usable interfaces) as [|i0 l] eqn:Hf; [reflexivity|].
  assert (Hin : In i0 (filter usable interfaces)) by (rewrite Hf; now left).
  apply filter_In in Hin as [Hin Hu]. rewrite (Hnone _ Hin) in Hu.
  discriminate.
Qed.

(** The unbound license on the machine with only the loopback and a card
    that is down. *)
Lemma VerifyHardwareBinding_without_interface_unbound :
  VerifyHardwareBinding (GetHardwareInfo machines.isolated)
    fixtures.license_unbound
  = Some
      (Errorf "failed to get hardware info: %v"
         (Errorf "failed to get MAC addresses: %v"
            (New "no valid MAC addresses found"))).
Proof.
  apply (@VerifyHardwareBinding_without_interface machines.isolated
           [machines.lo; machines.eth1] fixtures.license_unbound).
  - reflexivity.
  - intros iface [<-|[<-|[]]]; reflexivity.
Defined.

(** X23.  When [GetHardwareInfo] succeeds, the four sources have answered
    and its answer is theirs: the MAC addresses are those of
    [getMACAddresses], hence at least one, and the disk IDs, host name and
    CPU are what the operating system returned. *)
Theorem GetHardwareInfo_Ok (host : Host) (hwInfo : hardware.HardwareInfo) :
  GetHardwareInfo host = Ok hwInfo ->
  hardware.MACAddresses hwInfo <> []
  /\ getMACAddresses (net_Interfaces host)
     = Ok (hardware.MACAddresses hwInfo)
  /\ getDiskIDs host = Ok (hardware.DiskIDs hwInfo)
  /\ os_Hostname host = Ok (hardware.Hostname hwInfo)
  /\ getCPUInfo host = Ok (hardware.CPUInfo hwInfo).
Proof.
  unfold GetHardwareInfo.
  destruct (getMACAddresses (net_Interfaces host)) as [macs|e] eqn:Hm;
    [|discriminate].
  destruct (getDiskIDs host) as [disks|e]; [|discriminate].
  destruct (os_Hostname host) as [hostname|e]; [|discriminate].
  destruct (getCPUInfo host) as [cpu|e]; [|discriminate].
  intros [= <-]. cbn. repeat split; try reflexivity.
  unfold getMACAddresses in Hm.
  destruct (net_Interfaces host) as [interfaces|e]; [|discriminate].
  destruct macs; [|discriminate].
  destruct (fold_left _ interfaces []); discriminate.
Qed.

(** The machine with a card up. *)
Lemma GetHardwareInfo_Ok_wired :
  ["00:11:22:33:44:55"] <> @nil string
  /\ getMACAddresses (net_Interfaces machines.wired)
     = Ok ["00:11:22:33:44:55"]
  /\ getDiskIDs machines.wired = Ok ["disk-1"]
  /\ os_Hostname machines.wired = Ok fixtures.H1
  /\ getCPUInfo machines.wired = Ok "cpu".
Proof.
  apply (@GetHardwareInfo_Ok machines.wired
           (hardware.mkHardwareInfo ["00:11:22:33:44:55"] ["disk-1"]
              fixtures.H1 "cpu")).
  reflexivity.
Defined.

End Detection.

(** X24.  [GenerateLicense] fails only when signing fails, never because
    of the payload: the error of [rsa.SignPKCS1v15] comes back wrapped by
    [SignData] and by [GenerateLicense], and a signature comes back
    appended to the encoding of the license. *)
Theorem GenerateLicense_fails_only_on_signing
    (sha256_Sum256 : list byte -> list byte)
    (rsa_SignPKCS1v15 : PrivateKey -> list byte -> result (list byte))
    (now1 now2 : Time) (id customerID productID serialNumber : string)
    (expiryDuration : Z) (features : list string)
    (hardwareIDs : licverify.HardwareBinding) (privateKey : PrivateKey) :
  (forall err,
      rsa_SignPKCS1v15 privateKey
        (sha256_Sum256
           (wire.layout
              (issue.payloadOf
                 (issue.issued now1 now2 id customerID productID
                    serialNumber expiryDuration features hardwareIDs))))
      = Err err ->
      licgen.GenerateLicense sha256_Sum256 rsa_SignPKCS1v15 now1 now2
        id customerID productID serialNumber expiryDuration features
        hardwareIDs privateKey
      = Err (Errorf "failed to sign license: %v"
               (Errorf "failed to sign data: %v" err)))
  /\ (forall signature,
        rsa_SignPKCS1v15 privateKey
          (sha256_Sum256
             (wire.layout
                (issue.payloadOf
                   (issue.issued now1 now2 id customerID productID
                      serialNumber expiryDuration features hardwareIDs))))
        = Ok signature ->
        licgen.GenerateLicense sha256_Sum256 rsa_SignPKCS1v15 now1 now2
          id customerID productID serialNumber expiryDuration features
          hardwareIDs privateKey
        = Ok (wire.layout
                (issue.payloadOf
                   (issue.issued now1 now2 id customerID productID
                      serialNumber expiryDuration features hardwareIDs))
              ++ signature)).
Proof.
  rewrite GenerateLicense_cases.
  split; intros x Hsign; now rewrite Hsign.
Qed.

(** A license with an identifier of 65536 bytes is issued all the same. *)
Lemma GenerateLicense_fails_only_on_signing_long_ID :
  licgen.GenerateLicense fixtures.digest fixtures.sign samples.t0 samples.t0
    (samples.zeros 65536) "C1" "P1" "S1" samples.year ["basic"]
    (licverify.mkHardwareBinding [] [] [] []) fixtures.key2048
  = Ok (wire.layout
          (issue.payloadOf
             (issue.issued samples.t0 samples.t0 (samples.zeros 65536)
                "C1" "P1" "S1" samples.year ["basic"]
                (licverify.mkHardwareBinding [] [] [] [])))
        ++ fixtures.signature2048).
Proof.
  apply (GenerateLicense_fails_only_on_signing fixtures.digest fixtures.sign
           samples.t0 samples.t0 (samples.zeros 65536) "C1" "P1" "S1"
           samples.year ["basic"] (licverify.mkHardwareBinding [] [] [] [])
           fixtures.key2048).
  reflexivity.
Defined.
